(** * webpage-impact: resource tracking and metric derivation

    A shallow embedding of [src/lib/webpage-impact/index.ts]: the CDP
    correlation maps, the page-level response handler, the merge of both
    into [Resource] records, [computeMetrics], and the part of [execute]
    that hands the reload ratio back to the caller.

    Conventions.
    - A JavaScript [number] that holds a byte count is a [Z]; sums of such
      counts are exact in IEEE doubles below 2^53, which is the range the
      browser reports.
    - The one division of the program, in [computeMetrics], yields a
      [JSNumber]: an exact rational, or one of the three non-finite values
      a division by zero produces.  Rounding of the quotient to the nearest
      double is not modelled.
    - [console.warn] / [console.error] are an output log threaded through a
      small writer monad.
    - A JavaScript [Map] that is only read with [get] and written with
      [set] is a [gmap]; the plain object built by the reducer of
      [computeMetrics] keeps its insertion order, which [Object.values]
      observes, and is an association list. *)

From Stdlib Require Import ZArith QArith Qcanon String Ascii List Bool.
From stdpp Require Import base decidable option list strings gmap fin_maps numbers.

Local Open Scope string_scope.
Local Open Scope Z_scope.

(** ** JavaScript numbers and values *)

Inductive JSNumber : Type :=
  | Finite (q : Qc)
  | PosInfinity
  | NegInfinity
  | NaN.

#[global] Instance JSNumber_eq_dec : EqDecision JSNumber.
Proof. solve_decision. Defined.

(** [n / d] on two integer-valued numbers, [d] being [+0] when it is zero. *)
Definition js_div (n d : Z) : JSNumber :=
  if d =? 0 then
    match n ?= 0 with
    | Eq => NaN
    | Gt => PosInfinity
    | Lt => NegInfinity
    end
  else Finite (Qc_of_Z n / Qc_of_Z d)%Qc.

(** ToBoolean on a number: [0] and [NaN] are falsy. *)
Definition number_truthy (x : JSNumber) : bool :=
  match x with
  | Finite q => negb (bool_decide (q = 0%Qc))
  | PosInfinity | NegInfinity => true
  | NaN => false
  end.

Inductive JSValue : Type :=
  | JSUndefined
  | JSNum (x : JSNumber)
  | JSStr (s : string).

#[global] Instance JSValue_eq_dec : EqDecision JSValue.
Proof. solve_decision. Defined.

(** ** Console output *)

Inductive ConsoleMessage : Type :=
  | ConsoleWarn (args : list string)
  | ConsoleError (args : list string).

Definition Console (A : Type) : Type := A * list ConsoleMessage.

Definition creturn {A} (a : A) : Console A := (a, []).

Definition cbind {A B} (c : Console A) (k : A -> Console B) : Console B :=
  let '(a, out1) := c in
  let '(b, out2) := k a in
  (b, (out1 ++ out2)%list).

Definition console_warn (args : list string) : Console unit :=
  (tt, [ConsoleWarn args]).

Definition console_error (args : list string) : Console unit :=
  (tt, [ConsoleError args]).

Definition value {A} (c : Console A) : A := fst c.
Definition output {A} (c : Console A) : list ConsoleMessage := snd c.

Notation "x <- c1 ;;; c2" := (cbind c1 (fun x => c2))
  (at level 100, c1 at next level, right associativity).
Notation "c1 ;;; c2" := (cbind c1 (fun _ => c2))
  (at level 100, right associativity).

(** [Array.prototype.map] with a callback that logs. *)
Fixpoint cmap {A B} (f : A -> Console B) (l : list A) : Console (list B) :=
  match l with
  | [] => creturn []
  | a :: l' => b <- f a ;;; bs <- cmap f l' ;;; creturn (b :: bs)
  end.

(** ** Resources *)

(** Modelled from the spec: the type [ResourceType], which the source
    imports from puppeteer and does not declare; its members are the closed
    set of reporting keys. *)
Module ResourceType.
Inductive t : Type :=
  | document | stylesheet | image | media | font | script | texttrack
  | xhr | fetch | eventsource | websocket | manifest | signedexchange
  | ping | cspviolationreport | preflight | other.

#[global] Instance eq_dec : EqDecision t.
Proof. solve_decision. Defined.
End ResourceType.

Module ResourceBase.
Record t : Type := mk {
  url : string;
  resourceSize : Z;
  type : ResourceType.t;
  fromCache : bool;
  fromServiceWorker : bool;
}.
End ResourceBase.

Module Resource.
Record t : Type := mk {
  url : string;
  resourceSize : Z;
  type : ResourceType.t;
  fromCache : bool;
  fromServiceWorker : bool;
  transferSize : Z;
}.

(** [{...resource, transferSize: ts}] *)
Definition spread (resource : ResourceBase.t) (ts : Z) : t :=
  {| url := ResourceBase.url resource;
     resourceSize := ResourceBase.resourceSize resource;
     type := ResourceBase.type resource;
     fromCache := ResourceBase.fromCache resource;
     fromServiceWorker := ResourceBase.fromServiceWorker resource;
     transferSize := ts |}.
End Resource.

(** ** The object [Record<ResourceType, number>]

    Own properties in insertion order.  No [ResourceType] names a property
    of [Object.prototype], so [k in o] holds exactly when [get o k] is
    defined. *)
Module JSObject.
Definition t : Type := list (ResourceType.t * Z).

Definition empty : t := [].

Fixpoint get (o : t) (k : ResourceType.t) : option Z :=
  match o with
  | [] => None
  | (k', v) :: o' => if decide (k' = k) then Some v else get o' k
  end.

(** [o[k] = v]: an existing property keeps its place, a new one goes last. *)
Fixpoint set (o : t) (k : ResourceType.t) (v : Z) : t :=
  match o with
  | [] => [(k, v)]
  | (k', v') :: o' =>
      if decide (k' = k) then (k', v) :: o' else (k', v') :: set o' k v
  end.

Definition keys (o : t) : list ResourceType.t := map fst o.
Definition values (o : t) : list Z := map snd o.
End JSObject.

(** ** Metric Aggregator: [computeMetrics] *)

Record MetricsResult : Type := {
  pageWeight : Z;
  resourceTypeWeights : JSObject.t;
  dataReloadRatio : option JSNumber;
}.

(** The reducer building [resourceTypeWeights]: [acc[type] += transferSize]
    when [type in acc], [acc[type] = transferSize] otherwise. *)
Definition weighResource (acc : JSObject.t) (resource : Resource.t) : JSObject.t :=
  match JSObject.get acc (Resource.type resource) with
  | Some w =>
      JSObject.set acc (Resource.type resource) (w + Resource.transferSize resource)
  | None =>
      JSObject.set acc (Resource.type resource) (Resource.transferSize resource)
  end.

(** [(acc, resource) => acc + (resource.fromCache ? resource.transferSize : 0)] *)
Definition addIfFromCache (acc : Z) (resource : Resource.t) : Z :=
  acc + (if Resource.fromCache resource then Resource.transferSize resource else 0).

Definition addTransferSize (acc : Z) (resource : Resource.t) : Z :=
  acc + Resource.transferSize resource.

Definition warnInitialCache : list string :=
  ["Initial page load contained resources from cache."].

Definition computeMetrics (initialResources reloadResources : list Resource.t)
    (computeReloadRatio : bool) : Console MetricsResult :=
  let resourceTypeWeights := fold_left weighResource initialResources JSObject.empty in
  let initialPageWeight :=
    fold_left (fun acc resourceTypeSize => acc + resourceTypeSize)
      (JSObject.values resourceTypeWeights) 0 in
  dataReloadRatio <-
    (if computeReloadRatio then
       let initialCacheWeight := fold_left addIfFromCache initialResources 0 in
       (if 0 <? initialCacheWeight then console_warn warnInitialCache
        else creturn tt) ;;;
       let reloadPageWeight := fold_left addTransferSize reloadResources 0 in
       let assumeFromCache := initialPageWeight - reloadPageWeight in
       let browserCache := fold_left addIfFromCache reloadResources 0 in
       let assumedCacheWeight := assumeFromCache + browserCache in
       creturn (Some (js_div (initialPageWeight - assumedCacheWeight) initialPageWeight))
     else creturn None) ;;;
  creturn {| pageWeight := initialPageWeight;
             resourceTypeWeights := resourceTypeWeights;
             dataReloadRatio := dataReloadRatio |}.

(** ** Non-Network Filter and Page Load Recorder *)

Inductive BufferResult : Type :=
  | BufferOk (length : Z)
  | BufferRejected (error : string).

(** What the response handler reads off a puppeteer [HTTPResponse]:
    [requestUrl] is [response.request().url()], [requestMethod] is
    [response.request().method()], [resourceType] is
    [response.request().resourceType()], and [buffer] is the outcome of
    awaiting [response.buffer()]. *)
Module HTTPResponse.
Record t : Type := mk {
  requestUrl : string;
  requestMethod : string;
  resourceType : ResourceType.t;
  url : string;
  status : Z;
  buffer : BufferResult;
  fromCache : bool;
  fromServiceWorker : bool;
}.
End HTTPResponse.

Definition NON_NETWORK_SCHEMES : list string :=
  ["blob"; "data"; "intent"; "file"; "filesystem"; "chrome-extension"].

(** [url.startsWith(prefix)] *)
Definition startsWith (url prefix : string) : bool := String.prefix prefix url.

Definition isFromNonNetworkRequest (response : HTTPResponse.t) : bool :=
  let url := HTTPResponse.requestUrl response in
  existsb (fun scheme => startsWith url (scheme ++ ":")) NON_NETWORK_SCHEMES.

Definition hasNoResponseBody (response : HTTPResponse.t) : bool :=
  (HTTPResponse.status response =? 204)
  && (HTTPResponse.status response =? 304)
  && negb (String.eqb (HTTPResponse.requestMethod response) "OPTIONS").

(** One run of the ['response'] listener on the accumulating
    [pageResources]; a rejected body read is caught and logged. *)
Definition responseHandler (pageResources : list ResourceBase.t)
    (response : HTTPResponse.t) : Console (list ResourceBase.t) :=
  if isFromNonNetworkRequest response || hasNoResponseBody response then
    creturn pageResources
  else
    match HTTPResponse.buffer response with
    | BufferOk length =>
        let resource :=
          {| ResourceBase.url := HTTPResponse.url response;
             ResourceBase.resourceSize := length;
             ResourceBase.fromCache := HTTPResponse.fromCache response;
             ResourceBase.fromServiceWorker := HTTPResponse.fromServiceWorker response;
             ResourceBase.type := HTTPResponse.resourceType response |} in
        creturn (pageResources ++ [resource])%list
    | BufferRejected error =>
        console_error ["WebpageImpact: Error accessing response body: " ++ error] ;;;
        creturn pageResources
    end.

(** The listener applied to the responses of one navigation, one after the
    other. *)
Fixpoint recordResponses (pageResources : list ResourceBase.t)
    (responses : list HTTPResponse.t) : Console (list ResourceBase.t) :=
  match responses with
  | [] => creturn pageResources
  | response :: rest =>
      pageResources' <- responseHandler pageResources response ;;;
      recordResponses pageResources' rest
  end.

(** ** Transport-Session Correlator *)

Inductive CdpEvent : Type :=
  | ResponseReceived (requestId : string) (url : string)
  | LoadingFinished (requestId : string) (encodedDataLength : Z).

(** [cdpIntermediateStore : Map<requestId, {url}>] and
    [cdpResponses : Map<url, {encodedDataLength}>]; the one-field objects
    are kept as their field. *)
Record CdpMaps : Type := {
  cdpIntermediateStore : gmap string string;
  cdpResponses : gmap string Z;
}.

Definition cdpStart : CdpMaps :=
  {| cdpIntermediateStore := ∅; cdpResponses := ∅ |}.

Definition onCdpEvent (maps : CdpMaps) (event : CdpEvent) : CdpMaps :=
  match event with
  | ResponseReceived requestId url =>
      {| cdpIntermediateStore := <[requestId := url]> (cdpIntermediateStore maps);
         cdpResponses := cdpResponses maps |}
  | LoadingFinished requestId encodedDataLength =>
      match cdpIntermediateStore maps !! requestId with
      | Some url =>
          {| cdpIntermediateStore := cdpIntermediateStore maps;
             cdpResponses := <[url := encodedDataLength]> (cdpResponses maps) |}
      | None => maps
      end
  end.

Definition cdpSession (events : list CdpEvent) : CdpMaps :=
  fold_left onCdpEvent events cdpStart.

Definition warnNoLength : string := "No encoded data length for resource: ".

Definition mergeResource (cdpResponses : gmap string Z)
    (resource : ResourceBase.t) : Console Resource.t :=
  let cdpResponse := cdpResponses !! ResourceBase.url resource in
  (if cdpResponse is None
   then console_warn [warnNoLength; ResourceBase.url resource]
   else creturn tt) ;;;
  creturn (match cdpResponse with
           | Some encodedDataLength => Resource.spread resource encodedDataLength
           | None => Resource.spread resource 0
           end).

Definition mergeCdpResponsesIntoResources (pageResources : list ResourceBase.t)
    (cdpResponses : gmap string Z) : Console (list Resource.t) :=
  cmap (mergeResource cdpResponses) pageResources.

(** What the browser delivers during one navigation: the transport events
    in their order of arrival, and the responses whose handler has run to
    its end when the listener is detached, in the order in which their body
    reads settle. *)
Record Navigation : Type := {
  cdpEvents : list CdpEvent;
  responses : list HTTPResponse.t;
}.

(** A navigation that settles; both listeners are detached before the merge. *)
Definition loadPageResources (navigation : Navigation) : Console (list Resource.t) :=
  let maps := cdpSession (cdpEvents navigation) in
  pageResources <- recordResponses [] (responses navigation) ;;;
  mergeCdpResponsesIntoResources pageResources (cdpResponses maps).

(** ** The plugin entry point *)

Module Config.
(** The key of [ConfigParams] that reaches the metric computation:
    [options] is [None] for a config without that key, and otherwise holds
    the [dataReloadRatio] of the options object ([None] when it has none). *)
Record t : Type := mk {
  options : option (option JSNumber);
}.

(** [config?.options?.dataReloadRatio] *)
Definition dataReloadRatio (config : option t) : option JSNumber :=
  match config with
  | Some c => match options c with Some o => o | None => None end
  | None => None
  end.
End Config.

Module PluginParams.
(** An input, of which the plugin reads [url] and spreads [options]
    (an object, or absent). *)
Record t : Type := mk {
  url : string;
  options : option (gmap string JSValue);
}.
End PluginParams.

Module Output.
(** [network_data_bytes] is the key ['network/data/bytes'],
    [network_data_resources_bytes] the key ['network/data/resources/bytes']. *)
Record t : Type := mk {
  url : string;
  network_data_bytes : Z;
  network_data_resources_bytes : JSObject.t;
  options : option (gmap string JSValue);
}.
End Output.

(** [!config?.options?.dataReloadRatio] *)
Definition computeReloadRatioOf (config : option Config.t) : bool :=
  negb (match Config.dataReloadRatio config with
        | Some x => number_truthy x
        | None => false
        end).

Definition ratioValue (dataReloadRatio : option JSNumber) : JSValue :=
  match dataReloadRatio with
  | Some x => JSNum x
  | None => JSUndefined
  end.

Section Plugin.
(** The page behind each URL: what its initial load and its reload deliver. *)
Variable browser : string -> Navigation * Navigation.

Definition measurePageImpactMetrics (url : string) (config : option Config.t)
    : Console MetricsResult :=
  let computeReloadRatio := computeReloadRatioOf config in
  initialResources <- loadPageResources (fst (browser url)) ;;;
  reloadedResources <- loadPageResources (snd (browser url)) ;;;
  computeMetrics initialResources reloadedResources computeReloadRatio.

(** The callback of [inputs.map] in [execute]; of the object it returns,
    the keys copied from the input other than [url] and [options], and the
    lighthouse report, are left out. *)
Definition executeInput (config : option Config.t) (input : PluginParams.t)
    : Console Output.t :=
  metrics <- measurePageImpactMetrics (PluginParams.url input) config ;;;
  let dataReloadRatio := dataReloadRatio metrics in
  let condition :=
    match PluginParams.options input with
    | Some _ => true
    | None =>
        match dataReloadRatio with
        | Some x => number_truthy x
        | None => false
        end
    end in
  creturn
    {| Output.url := PluginParams.url input;
       Output.network_data_bytes := pageWeight metrics;
       Output.network_data_resources_bytes := resourceTypeWeights metrics;
       Output.options :=
         if condition then
           Some (<["dataReloadRatio" := ratioValue dataReloadRatio]>
                   (default ∅ (PluginParams.options input)))
         else PluginParams.options input |}.

(** [Object.assign({}, validateGlobalConfig(), validateConfig(config))]:
    an [options] key of [config] replaces the global one.
    Modelled from the spec: [validate], of the absent [util/validations],
    hands back a configuration that conforms to the schema as it is. *)
Definition mergedValidatedConfig (globalConfig config : option Config.t) : Config.t :=
  {| Config.options :=
       match config ≫= Config.options with
       | Some o => Some o
       | None => globalConfig ≫= Config.options
       end |}.

Definition execute (globalConfig : option Config.t)
    (inputs : list PluginParams.t) (config : option Config.t)
    : Console (list Output.t) :=
  cmap (executeInput (Some (mergedValidatedConfig globalConfig config))) inputs.
End Plugin.

(** * Specification-side notions *)

(** Sum of [f] over a list, the "sum of ... over ..." of the specification. *)
Definition sumOf {A} (f : A -> Z) (l : list A) : Z :=
  foldr (fun a s => f a + s) 0 l.

Definition cachedTransferSize (resource : Resource.t) : Z :=
  if Resource.fromCache resource then Resource.transferSize resource else 0.

(** What the worked examples of the specification fix of a resource. *)
Definition typeSizeCache (resource : Resource.t) : ResourceType.t * Z * bool :=
  (Resource.type resource, Resource.transferSize resource, Resource.fromCache resource).

(** The five fields a [Resource] shares with the [ResourceBase] it comes from. *)
Definition baseOf (resource : Resource.t) : ResourceBase.t :=
  {| ResourceBase.url := Resource.url resource;
     ResourceBase.resourceSize := Resource.resourceSize resource;
     ResourceBase.type := Resource.type resource;
     ResourceBase.fromCache := Resource.fromCache resource;
     ResourceBase.fromServiceWorker := Resource.fromServiceWorker resource |}.

(** * Worked inputs and further specification-side notions *)

Definition exampleInitial : list Resource.t :=
  [ Resource.mk "https://example.com/logo.png" 120 ResourceType.image false false 100;
    Resource.mk "https://example.com/app.js" 90 ResourceType.script false false 50 ].

Definition exampleReload : list Resource.t :=
  [ Resource.mk "https://example.com/logo.png" 120 ResourceType.image true false 0;
    Resource.mk "https://example.com/app.js" 90 ResourceType.script false false 50 ].

Definition uncachedScript : list Resource.t :=
  [ Resource.mk "https://example.com/app.js" 90 ResourceType.script false false 50 ].

Definition coldImage : list Resource.t :=
  [ Resource.mk "https://example.com/logo.png" 120 ResourceType.image false false 100 ].

Definition silentReload : list Resource.t :=
  [ Resource.mk "https://example.com/logo.png" 120 ResourceType.image false false 0 ].

Definition heavierReload : list Resource.t :=
  [ Resource.mk "https://example.com/logo.png" 120 ResourceType.image false false 200 ].

(** One page, served identically to every URL. *)
Definition pngResponse (fromCache : bool) : HTTPResponse.t :=
  {| HTTPResponse.requestUrl := "https://example.com/logo.png";
     HTTPResponse.requestMethod := "GET";
     HTTPResponse.resourceType := ResourceType.image;
     HTTPResponse.url := "https://example.com/logo.png";
     HTTPResponse.status := 200;
     HTTPResponse.buffer := BufferOk 120;
     HTTPResponse.fromCache := fromCache;
     HTTPResponse.fromServiceWorker := false |}.

Definition pngNavigation (fromCache : bool) (encodedDataLength : Z) : Navigation :=
  {| cdpEvents := [ResponseReceived "7.1" "https://example.com/logo.png";
                   LoadingFinished "7.1" encodedDataLength];
     responses := [pngResponse fromCache] |}.

Definition examplePage (url : string) : Navigation * Navigation :=
  (pngNavigation false 100, pngNavigation false 40).

Definition withRatio (x : JSNumber) : option Config.t :=
  Some {| Config.options := Some (Some x) |}.

Definition half : JSNumber := Finite (Q2Qc (1 # 2)).

Definition bareInput : PluginParams.t :=
  {| PluginParams.url := "https://example.com"; PluginParams.options := None |}.

Definition inputWithOptions : PluginParams.t :=
  {| PluginParams.url := "https://example.com";
     PluginParams.options := Some {["dataReloadRatio" := JSNum half]} |}.

(** The scheme of a URL: what precedes its first colon. *)
Fixpoint urlScheme (url : string) : option string :=
  match url with
  | EmptyString => None
  | String c rest =>
      if Ascii.eqb c ":" then Some EmptyString else String c <$> urlScheme rest
  end.

Definition hasNonNetworkScheme (url : string) : Prop :=
  exists scheme, In scheme NON_NETWORK_SCHEMES /\ urlScheme url = Some scheme.

Fixpoint noColon (s : string) : bool :=
  match s with
  | EmptyString => true
  | String c s' => negb (Ascii.eqb c ":") && noColon s'
  end.

(** What a response adds to [pageResources], if anything. *)
Definition captured (response : HTTPResponse.t) : option ResourceBase.t :=
  match value (responseHandler [] response) with
  | [] => None
  | resource :: _ => Some resource
  end.

Definition noContentResponse : HTTPResponse.t :=
  {| HTTPResponse.requestUrl := "https://example.com/api/ping";
     HTTPResponse.requestMethod := "GET";
     HTTPResponse.resourceType := ResourceType.fetch;
     HTTPResponse.url := "https://example.com/api/ping";
     HTTPResponse.status := 204;
     HTTPResponse.buffer := BufferOk 0;
     HTTPResponse.fromCache := false;
     HTTPResponse.fromServiceWorker := false |}.

Definition blobResponse (status : Z) : HTTPResponse.t :=
  {| HTTPResponse.requestUrl := "blob:https://example.com/0f3a";
     HTTPResponse.requestMethod := "GET";
     HTTPResponse.resourceType := ResourceType.media;
     HTTPResponse.url := "blob:https://example.com/0f3a";
     HTTPResponse.status := status;
     HTTPResponse.buffer := BufferOk 2048;
     HTTPResponse.fromCache := false;
     HTTPResponse.fromServiceWorker := false |}.

Definition mixedNavigation : Navigation :=
  {| cdpEvents := [ResponseReceived "7.1" "https://example.com/logo.png";
                   LoadingFinished "7.1" 100];
     responses := [blobResponse 200; pngResponse false; blobResponse 404] |}.

Definition pngEvents : list CdpEvent :=
  [ResponseReceived "7.1" "https://example.com/logo.png"; LoadingFinished "7.1" 100].

Definition warnedFor (resource : ResourceBase.t) : ConsoleMessage :=
  ConsoleWarn [warnNoLength; ResourceBase.url resource].

Definition pngBase : ResourceBase.t :=
  ResourceBase.mk "https://example.com/logo.png" 120 ResourceType.image false false.

Definition fontBase : ResourceBase.t :=
  ResourceBase.mk "https://example.com/body.woff2" 3000 ResourceType.font false false.

(** * Request interception, scrolling and the report file *)

(** ** [requestHandler] *)

(** The value of [config.headers['accept-encoding']]: an array of
    encodings or one string. *)
Inductive AcceptEncoding : Type :=
  | EncodingArray (encodings : list string)
  | EncodingString (encoding : string).

Module HeadersConfig.
(** [config.headers]; [accept_encoding] is the key ['accept-encoding']. *)
Record t : Type := mk {
  accept : option string;
  accept_encoding : option AcceptEncoding;
}.
End HeadersConfig.

(** ToBoolean on a string: only the empty string is falsy. *)
Definition string_truthy (s : string) : bool := negb (String.eqb s "").

(** ToBoolean on the accept-encoding value: an array is an object, truthy
    even when empty. *)
Definition acceptEncoding_truthy (e : AcceptEncoding) : bool :=
  match e with
  | EncodingArray _ => true
  | EncodingString encoding => string_truthy encoding
  end.

(** [Array.isArray(e) ? e.join(', ') : e] *)
Definition acceptEncoding_value (e : AcceptEncoding) : string :=
  match e with
  | EncodingArray encodings => String.concat ", " encodings
  | EncodingString encoding => encoding
  end.

(** The headers the intercepted request continues with, from
    [config?.headers] and [interceptedRequest.headers()]. *)
Definition requestHandler (headersConfig : option HeadersConfig.t)
    (requestHeaders : gmap string string) : gmap string string :=
  let acceptPart : gmap string string :=
    match headersConfig ≫= HeadersConfig.accept with
    | Some accept => if string_truthy accept then {["accept" := accept]} else ∅
    | None => ∅
    end in
  let encodingPart : gmap string string :=
    match headersConfig ≫= HeadersConfig.accept_encoding with
    | Some e =>
        if acceptEncoding_truthy e
        then {["accept-encoding" := acceptEncoding_value e]}
        else ∅
    | None => ∅
    end in
  (encodingPart ∪ acceptPart) ∪ requestHeaders.

(** ** [scrollToBottomOfPage] *)

Definition distance : Z := 100.

Section Scroll.
(** [document.body.scrollHeight] as read by the timer callback on its
    n-th run, n counting from 0. *)
Variable scrollHeight : nat -> Z.

(** The runs of the timer callback from run [tick] on, [totalHeight]
    having been scrolled so far; the result is the number of runs after
    which the promise resolves and the total scrolled. *)
Fixpoint scrollLoop (fuel tick : nat) (totalHeight : Z) : option (nat * Z) :=
  match fuel with
  | O => None
  | S fuel' =>
      let totalHeight' := totalHeight + distance in
      if scrollHeight tick <=? totalHeight'
      then Some (S tick, totalHeight')
      else scrollLoop fuel' (S tick) totalHeight'
  end.

Definition scrollToBottomOfPage (fuel : nat) : option (nat * Z) :=
  scrollLoop fuel 0 0.
End Scroll.

(** ** [getEscapedFileName] and [writeReportToFile] *)

(** The character class of the regular expression: slash, backslash,
    question mark, percent, star, colon, bar, double quote, angle brackets. *)
Definition ESCAPED_CHARACTERS : list ascii :=
  ["/"; "\"; "?"; "%"; "*"; ":"; "|"; "034"; "<"; ">"]%char.

Definition escapeCharacter (c : ascii) : ascii :=
  if existsb (Ascii.eqb c) ESCAPED_CHARACTERS then "_"%char else c.

Fixpoint mapCharacters (f : ascii -> ascii) (s : string) : string :=
  match s with
  | EmptyString => EmptyString
  | String c rest => String (f c) (mapCharacters f rest)
  end.

Definition getEscapedFileName (url : string) : string :=
  mapCharacters escapeCharacter url.

Inductive LighthouseReport : Type :=
  | ReportString (report : string)
  | ReportArray (parts : list string).

Module ValidatedInput.
(** What [writeReportToFile] reads of the input; [timer_start] is the key
    ['timer/start'].  An absent key is [None] and prints as [undefined]. *)
Record t : Type := mk {
  url : string;
  timer_start : option string;
  timestamp : option string;
}.
End ValidatedInput.

(** A value inside a template literal. *)
Definition templateValue (v : option string) : string := default "undefined" v.

(** [fs.writeFileSync] that succeeds, on a file system read as a map from
    path to content; the result is the returned file name and the file
    system after the write. *)
Definition writeReportToFile (lighthouseReport : LighthouseReport)
    (validatedInput : ValidatedInput.t) (files : gmap string string)
    : string * gmap string string :=
  let timestamp :=
    match ValidatedInput.timer_start validatedInput with
    | Some start =>
        if string_truthy start then Some start
        else ValidatedInput.timestamp validatedInput
    | None => ValidatedInput.timestamp validatedInput
    end in
  let unescapedFileName :=
    ("lighthouse-report-" ++ ValidatedInput.url validatedInput ++ "-"
       ++ templateValue timestamp ++ ".html")%string in
  let fileName := getEscapedFileName unescapedFileName in
  let content :=
    match lighthouseReport with
    | ReportArray parts => String.concat " " parts
    | ReportString report => report
    end in
  (fileName, <[fileName := content]> files).

(** ** Further specification-side notions *)

(** The types of a list in the order of their first occurrence. *)
Fixpoint firstOccurrences (types : list ResourceType.t) : list ResourceType.t :=
  match types with
  | [] => []
  | k :: rest => k :: filter (fun k' => k' <> k) (firstOccurrences rest)
  end.

(** A response the recorder keeps: a network request whose body can be read. *)
Definition isRecorded (response : HTTPResponse.t) : bool :=
  negb (isFromNonNetworkRequest response)
  && match HTTPResponse.buffer response with
     | BufferOk _ => true
     | BufferRejected _ => false
     end.

Definition bodyLength (response : HTTPResponse.t) : Z :=
  match HTTPResponse.buffer response with
  | BufferOk length => length
  | BufferRejected _ => 0
  end.

Definition resourceBaseOf (response : HTTPResponse.t) : ResourceBase.t :=
  {| ResourceBase.url := HTTPResponse.url response;
     ResourceBase.resourceSize := bodyLength response;
     ResourceBase.type := HTTPResponse.resourceType response;
     ResourceBase.fromCache := HTTPResponse.fromCache response;
     ResourceBase.fromServiceWorker := HTTPResponse.fromServiceWorker response |}.

(** The error a response's body read is logged with, if it is read and fails. *)
Definition bodyError (response : HTTPResponse.t) : option ConsoleMessage :=
  if isFromNonNetworkRequest response then None
  else match HTTPResponse.buffer response with
       | BufferOk _ => None
       | BufferRejected error =>
           Some (ConsoleError
                   [("WebpageImpact: Error accessing response body: " ++ error)%string])
       end.

(** ** Further worked inputs *)

Definition cachedInitial : list Resource.t :=
  [ Resource.mk "https://example.com/logo.png" 120 ResourceType.image true false 100 ].

Definition exampleInitialElsewhere : list Resource.t :=
  [ Resource.mk "https://cdn.example.org/a.webp" 9000 ResourceType.image true true 100;
    Resource.mk "https://cdn.example.org/b.js" 1 ResourceType.script false true 50 ].

Definition schemelessResponse : HTTPResponse.t :=
  {| HTTPResponse.requestUrl := "about";
     HTTPResponse.requestMethod := "GET";
     HTTPResponse.resourceType := ResourceType.other;
     HTTPResponse.url := "about";
     HTTPResponse.status := 200;
     HTTPResponse.buffer := BufferOk 0;
     HTTPResponse.fromCache := false;
     HTTPResponse.fromServiceWorker := false |}.

Definition isByteCount (event : CdpEvent) : Prop :=
  match event with
  | ResponseReceived _ _ => True
  | LoadingFinished _ encodedDataLength => 0 <= encodedDataLength
  end.

Definition repeatedNavigation : Navigation :=
  {| cdpEvents := [ResponseReceived "7.1" "https://example.com/logo.png";
                   LoadingFinished "7.1" 100;
                   ResponseReceived "7.2" "https://example.com/logo.png"];
     responses := [pngResponse false; pngResponse true] |}.




Definition fullyCachedPage (url : string) : Navigation * Navigation :=
  (pngNavigation false 100, pngNavigation true 0).

Definition browserHeaders : gmap string string :=
  {[ "accept" := "text/html,*/*"; "accept-encoding" := "gzip, deflate, br";
     "user-agent" := "HeadlessChrome" ]}.

Definition reportContent (lighthouseReport : LighthouseReport) : string :=
  match lighthouseReport with
  | ReportArray parts => String.concat " " parts
  | ReportString report => report
  end.

Definition reportTimestamp (validatedInput : ValidatedInput.t) : string :=
  match ValidatedInput.timer_start validatedInput with
  | Some start => if String.eqb start "" then templateValue (ValidatedInput.timestamp validatedInput) else start
  | None => templateValue (ValidatedInput.timestamp validatedInput)
  end.

Definition timedInput : ValidatedInput.t :=
  {| ValidatedInput.url := "https://example.com/a?b";
     ValidatedInput.timer_start := Some "2024-05-01T10:00:00.000Z";
     ValidatedInput.timestamp := Some "2024-01-01T00:00:00.000Z" |}.

(** * Console monad laws used below *)

Section ConsoleBind.
Context {A B : Type}.

Lemma value_cbind (c : Console A) (k : A -> Console B) :
  value (cbind c k) = value (k (value c)).
Proof. destruct c as [a o]; simpl. destruct (k a); reflexivity. Qed.

Lemma output_cbind (c : Console A) (k : A -> Console B) :
  output (cbind c k) = (output c ++ output (k (value c)))%list.
Proof. destruct c as [a o]; simpl. destruct (k a); reflexivity. Qed.
End ConsoleBind.

Section ConsoleMap.
Context {A B : Type}.

Lemma value_cmap (f : A -> Console B) (l : list A) :
  value (cmap f l) = map (fun a => value (f a)) l.
Proof.
  induction l as [|a l IH]; [reflexivity|].
  cbn [cmap]. rewrite !value_cbind. cbn. now rewrite IH.
Qed.

Lemma output_cmap (f : A -> Console B) (l : list A) :
  output (cmap f l) = concat (map (fun a => output (f a)) l).
Proof.
  induction l as [|a l IH]; [reflexivity|].
  cbn [cmap]. rewrite !output_cbind, IH. cbn.
  now rewrite app_nil_r.
Qed.
End ConsoleMap.

(** * Sums computed by the reducers *)

Lemma sumOf_cons {A} (f : A -> Z) (a : A) (l : list A) :
  sumOf f (a :: l) = f a + sumOf f l.
Proof. reflexivity. Qed.

Lemma fold_left_add_sumOf (l : list Z) (a : Z) :
  fold_left (fun acc x => acc + x) l a = a + sumOf id l.
Proof.
  revert a; induction l as [|x l IH]; intros a; cbn [fold_left]; [cbn; lia|].
  rewrite IH, sumOf_cons. unfold id at 2. lia.
Qed.

Lemma fold_left_addTransferSize (l : list Resource.t) (a : Z) :
  fold_left addTransferSize l a = a + sumOf Resource.transferSize l.
Proof.
  revert a; induction l as [|x l IH]; intros a; cbn [fold_left]; [cbn; lia|].
  rewrite IH, sumOf_cons. unfold addTransferSize. lia.
Qed.

Lemma fold_left_addIfFromCache (l : list Resource.t) (a : Z) :
  fold_left addIfFromCache l a = a + sumOf cachedTransferSize l.
Proof.
  revert a; induction l as [|x l IH]; intros a; cbn [fold_left]; [cbn; lia|].
  rewrite IH, sumOf_cons. unfold addIfFromCache. fold (cachedTransferSize x). lia.
Qed.

Module JSObjectFacts.
Import JSObject.

Lemma values_cons k v (o : t) : values ((k, v) :: o) = v :: values o.
Proof. reflexivity. Qed.

Lemma sum_set_present (o : t) k w v :
  get o k = Some w ->
  sumOf id (values (set o k v)) = sumOf id (values o) - w + v.
Proof.
  induction o as [|[k' v'] o IH]; cbn [get set]; [discriminate|].
  destruct (decide (k' = k)) as [->|Hne]; rewrite !values_cons, !sumOf_cons.
  - intros [= ->]. unfold id at 1 3. lia.
  - intros Hget. rewrite (IH Hget). lia.
Qed.

Lemma sum_set_absent (o : t) k v :
  get o k = None ->
  sumOf id (values (set o k v)) = sumOf id (values o) + v.
Proof.
  induction o as [|[k' v'] o IH]; cbn [get set]; [intros _; cbn; lia|].
  destruct (decide (k' = k)) as [->|Hne]; [discriminate|].
  rewrite !values_cons, !sumOf_cons.
  intros Hget. rewrite (IH Hget). lia.
Qed.

Lemma get_set_same (o : t) k v : get (set o k v) k = Some v.
Proof.
  induction o as [|[k' v'] o IH]; cbn.
  - now rewrite decide_True.
  - destruct (decide (k' = k)) as [->|Hne]; cbn.
    + now rewrite decide_True.
    + now rewrite decide_False.
Qed.

Lemma get_set_other (o : t) k k' v : k ≠ k' -> get (set o k v) k' = get o k'.
Proof.
  intros Hne. induction o as [|[k0 v0] o IH]; cbn.
  - now rewrite decide_False.
  - destruct (decide (k0 = k)) as [->|Hne0]; cbn.
    + now rewrite !decide_False.
    + now rewrite IH.
Qed.

Lemma keys_set_present (o : t) k v :
  is_Some (get o k) -> keys (set o k v) = keys o.
Proof.
  induction o as [|[k0 v0] o IH]; cbn.
  - intros [? [=]].
  - destruct (decide (k0 = k)) as [->|Hne0]; cbn; [reflexivity|].
    intros H. f_equal. now apply IH.
Qed.

Lemma keys_set_absent (o : t) k v :
  get o k = None -> keys (set o k v) = (keys o ++ [k])%list.
Proof.
  induction o as [|[k0 v0] o IH]; cbn; [reflexivity|].
  destruct (decide (k0 = k)) as [->|Hne0]; cbn; [discriminate|].
  intros H. f_equal. now apply IH.
Qed.
Lemma get_None_not_key (o : t) k : get o k = None -> k ∉ keys o.
Proof.
  induction o as [|[k0 v0] o IH]; cbn; [intros _; apply not_elem_of_nil|].
  destruct (decide (k0 = k)) as [->|Hne0]; [discriminate|].
  intros H. apply not_elem_of_cons. split; [congruence|now apply IH].
Qed.
End JSObjectFacts.

Lemma sum_weighResource (acc : JSObject.t) (resource : Resource.t) :
  sumOf id (JSObject.values (weighResource acc resource))
  = sumOf id (JSObject.values acc) + Resource.transferSize resource.
Proof.
  unfold weighResource.
  destruct (JSObject.get acc (Resource.type resource)) as [w|] eqn:Hget.
  - rewrite (JSObjectFacts.sum_set_present _ _ w) by assumption. lia.
  - now rewrite JSObjectFacts.sum_set_absent.
Qed.

Lemma sum_fold_weighResource (l : list Resource.t) (acc : JSObject.t) :
  sumOf id (JSObject.values (fold_left weighResource l acc))
  = sumOf id (JSObject.values acc) + sumOf Resource.transferSize l.
Proof.
  revert acc; induction l as [|r l IH]; intros acc; cbn [fold_left]; [cbn; lia|].
  rewrite IH, sum_weighResource, sumOf_cons. lia.
Qed.

(** Per key, the object holds the transfer size of the resources of that type. *)
Lemma get_fold_weighResource (l : list Resource.t) (acc : JSObject.t) k :
  JSObject.get (fold_left weighResource l acc) k
  = match JSObject.get acc k, filter (fun r => Resource.type r = k) l with
    | None, [] => None
    | None, rs => Some (sumOf Resource.transferSize rs)
    | Some w, rs => Some (w + sumOf Resource.transferSize rs)
    end.
Proof.
  revert acc; induction l as [|r l IH]; intros acc; cbn [fold_left].
  - cbn. destruct (JSObject.get acc k); [f_equal; lia | reflexivity].
  - rewrite IH. clear IH. unfold weighResource.
    rewrite filter_cons.
    destruct (decide (Resource.type r = k)) as [<-|Hne].
    + destruct (JSObject.get acc (Resource.type r)) as [w|];
        rewrite JSObjectFacts.get_set_same, sumOf_cons; f_equal; lia.
    + destruct (JSObject.get acc (Resource.type r)) as [w|];
        now rewrite JSObjectFacts.get_set_other.
Qed.

(** Each type is a property of the object at most once. *)
Lemma keys_weighResource_NoDup (acc : JSObject.t) (resource : Resource.t) :
  NoDup (JSObject.keys acc) -> NoDup (JSObject.keys (weighResource acc resource)).
Proof.
  intros Hacc. unfold weighResource.
  destruct (JSObject.get acc (Resource.type resource)) as [w|] eqn:Hget.
  - now rewrite JSObjectFacts.keys_set_present by (rewrite Hget; eauto).
  - rewrite JSObjectFacts.keys_set_absent by assumption.
    apply list.NoDup_app. split; [assumption|]. split; [|apply NoDup_singleton].
    intros k Hk ->%list_elem_of_singleton.
    apply JSObjectFacts.get_None_not_key in Hget. contradiction.
Qed.

Lemma keys_fold_weighResource_NoDup (l : list Resource.t) (acc : JSObject.t) :
  NoDup (JSObject.keys acc) -> NoDup (JSObject.keys (fold_left weighResource l acc)).
Proof.
  revert acc; induction l as [|r l IH]; intros acc Hacc; [exact Hacc|].
  cbn [fold_left]. now apply IH, keys_weighResource_NoDup.
Qed.

(** * The returned record, component by component *)

Lemma computeMetrics_resourceTypeWeights initialResources reloadResources b :
  resourceTypeWeights (value (computeMetrics initialResources reloadResources b))
  = fold_left weighResource initialResources JSObject.empty.
Proof.
  unfold computeMetrics; cbv zeta. rewrite value_cbind. reflexivity.
Qed.

Lemma computeMetrics_pageWeight initialResources reloadResources b :
  pageWeight (value (computeMetrics initialResources reloadResources b))
  = sumOf Resource.transferSize initialResources.
Proof.
  unfold computeMetrics; cbv zeta. rewrite value_cbind. cbn [value fst creturn pageWeight].
  rewrite fold_left_add_sumOf, sum_fold_weighResource. reflexivity.
Qed.

Lemma computeMetrics_ratio_computed initialResources reloadResources :
  dataReloadRatio (value (computeMetrics initialResources reloadResources true))
  = Some (js_div (sumOf Resource.transferSize reloadResources
                  - sumOf cachedTransferSize reloadResources)
                 (sumOf Resource.transferSize initialResources)).
Proof.
  unfold computeMetrics; cbv zeta. rewrite !value_cbind. cbn [value fst creturn dataReloadRatio].
  rewrite fold_left_add_sumOf, sum_fold_weighResource.
  rewrite fold_left_addTransferSize, fold_left_addIfFromCache.
  change (sumOf id (JSObject.values JSObject.empty)) with 0.
  do 2 f_equal. lia.
Qed.

Lemma computeMetrics_ratio_skipped initialResources reloadResources :
  dataReloadRatio (value (computeMetrics initialResources reloadResources false)) = None.
Proof. unfold computeMetrics; cbv zeta. rewrite !value_cbind. reflexivity. Qed.

(** The image/script page of the specification: its weights per type, in
    the order the types first occur, and its page weight. *)
Example example_weights (computeReloadRatio : bool) :
  let metrics := value (computeMetrics exampleInitial exampleReload computeReloadRatio) in
  resourceTypeWeights metrics = [(ResourceType.image, 100); (ResourceType.script, 50)]
  /\ pageWeight metrics = 150.
Proof.
  cbv zeta. rewrite computeMetrics_resourceTypeWeights, computeMetrics_pageWeight.
  split; reflexivity.
Qed.

Lemma resourceTypeWeights_NoDup initialResources reloadResources b :
  NoDup (JSObject.keys
           (resourceTypeWeights
              (value (computeMetrics initialResources reloadResources b)))).
Proof.
  rewrite computeMetrics_resourceTypeWeights.
  apply keys_fold_weighResource_NoDup, NoDup_nil_2.
Qed.

(** * Metric Aggregator: page weight *)

(** C2.  The [pageWeight] that [computeMetrics] returns is the sum of the
    values of the returned [resourceTypeWeights], and it is the sum of
    [transferSize] over the initial-load resources, whatever their types
    and however many of them share a type. *)
Theorem pageWeight_is_sum_of_weights
    (initialResources reloadResources : list Resource.t) (computeReloadRatio : bool) :
  let metrics := value (computeMetrics initialResources reloadResources computeReloadRatio) in
  pageWeight metrics = sumOf id (JSObject.values (resourceTypeWeights metrics))
  /\ pageWeight metrics = sumOf Resource.transferSize initialResources.
Proof.
  cbv zeta. split.
  - rewrite computeMetrics_pageWeight, computeMetrics_resourceTypeWeights.
    now rewrite sum_fold_weighResource.
  - apply computeMetrics_pageWeight.
Qed.

(** * Metric Aggregator: reload ratio *)

Lemma js_div_nonzero (n d : Z) :
  d <> 0 -> js_div n d = Finite (Qc_of_Z n / Qc_of_Z d)%Qc.
Proof. intros Hd. unfold js_div. now destruct (Z.eqb_spec d 0). Qed.

Lemma Qc_third : (Qc_of_Z 50 / Qc_of_Z 150)%Qc = Q2Qc (1 # 3).
Proof. apply Qc_is_canon. reflexivity. Qed.

(** C1.  With [computeReloadRatio] set and a non-zero [pageWeight], the
    returned [dataReloadRatio] is [(pageWeight - assumedCacheWeight) /
    pageWeight], where [assumedCacheWeight] adds the bytes missing from the
    reload to the reload bytes flagged [fromCache]; on the image/script
    example of the specification it is one third. *)
Theorem dataReloadRatio_formula (initialResources reloadResources : list Resource.t) :
  let metrics := value (computeMetrics initialResources reloadResources true) in
  let assumedCacheWeight :=
    (pageWeight metrics - sumOf Resource.transferSize reloadResources)
    + sumOf cachedTransferSize reloadResources in
  (pageWeight metrics <> 0 ->
   dataReloadRatio metrics
   = Some (Finite (Qc_of_Z (pageWeight metrics - assumedCacheWeight)
                   / Qc_of_Z (pageWeight metrics))%Qc))
  /\ (map typeSizeCache initialResources
        = [(ResourceType.image, 100, false); (ResourceType.script, 50, false)] ->
      map typeSizeCache reloadResources
        = [(ResourceType.image, 0, true); (ResourceType.script, 50, false)] ->
      dataReloadRatio metrics = Some (Finite (Q2Qc (1 # 3)))).
Proof.
  cbv zeta. rewrite computeMetrics_pageWeight, computeMetrics_ratio_computed. split.
  - intros Hpw. rewrite js_div_nonzero by assumption.
    match goal with
    | |- Some (Finite (Qc_of_Z ?a / _)%Qc) = Some (Finite (Qc_of_Z ?b / _)%Qc) =>
        replace b with a by lia
    end.
    reflexivity.
  - intros Hinit Hreload.
    assert (sumOf Resource.transferSize initialResources = 150) as ->.
    { destruct initialResources as [|i1 [|i2 [|]]]; try discriminate.
      injection Hinit as _ H1 _ _ H2 _. cbn. lia. }
    assert (sumOf Resource.transferSize reloadResources = 50) as ->.
    { destruct reloadResources as [|r1 [|r2 [|]]]; try discriminate.
      injection Hreload as _ H1 _ _ H2 _. cbn. lia. }
    assert (sumOf cachedTransferSize reloadResources = 0) as ->.
    { destruct reloadResources as [|r1 [|r2 [|]]]; try discriminate.
      injection Hreload as _ H1 F1 _ H2 F2. cbn. unfold cachedTransferSize.
      rewrite F1, F2. lia. }
    rewrite js_div_nonzero by lia. do 2 f_equal. apply Qc_third.
Qed.

Lemma dataReloadRatio_formula_witness :
  pageWeight (value (computeMetrics exampleInitial exampleReload true)) = 150
  /\ dataReloadRatio (value (computeMetrics exampleInitial exampleReload true))
     = Some (Finite (Qc_of_Z (150 - (150 - 50 + 0)) / Qc_of_Z 150)%Qc)
  /\ dataReloadRatio (value (computeMetrics exampleInitial exampleReload true))
     = Some (Finite (Q2Qc (1 # 3))).
Proof.
  split; [reflexivity|]. split.
  - apply (proj1 (dataReloadRatio_formula exampleInitial exampleReload)).
    vm_compute. discriminate.
  - apply (proj2 (dataReloadRatio_formula exampleInitial exampleReload)); reflexivity.
Defined.

(** ** The quotient as a rational *)

Section Quotient.
Variables n d : Z.
Hypothesis d_pos : 0 < d.

Lemma divisor_pos : (0 < Qc_of_Z d)%Qc.
Proof. rewrite <- Z2Qc_inj_0. exact (proj1 (Z2Qc_inj_lt 0 d) d_pos). Qed.

Lemma divisor_nonzero : Qc_of_Z d <> 0%Qc.
Proof. intros E. apply (Qclt_not_eq _ _ divisor_pos). now rewrite E. Qed.

Lemma quotient_times_divisor : (Qc_of_Z n / Qc_of_Z d * Qc_of_Z d)%Qc = Qc_of_Z n.
Proof. rewrite Qcmult_comm. apply Qcmult_div_r, divisor_nonzero. Qed.

Lemma quotient_le_1 : (Qc_of_Z n / Qc_of_Z d ≤ 1)%Qc <-> n <= d.
Proof.
  rewrite (Qcmult_le_mono_pos_r _ _ (Qc_of_Z d)) by exact divisor_pos.
  rewrite quotient_times_divisor, Qcmult_1_l. symmetry. apply Z2Qc_inj_le.
Qed.

Lemma quotient_eq_1 : (Qc_of_Z n / Qc_of_Z d)%Qc = 1%Qc <-> n = d.
Proof.
  split.
  - intros E. apply Z2Qc_inj.
    rewrite <- quotient_times_divisor, E. apply Qcmult_1_l.
  - intros ->. unfold Qcdiv. apply Qcmult_inv_r, divisor_nonzero.
Qed.

Lemma quotient_nonneg : 0 <= n -> (0 ≤ Qc_of_Z n / Qc_of_Z d)%Qc.
Proof.
  intros Hn.
  rewrite (Qcmult_le_mono_pos_r _ _ (Qc_of_Z d)) by exact divisor_pos.
  rewrite quotient_times_divisor, Qcmult_0_l, <- Z2Qc_inj_0.
  exact (proj1 (Z2Qc_inj_le 0 n) Hn).
Qed.
End Quotient.

Lemma quotient_of_zero (d : Z) : (Qc_of_Z 0 / Qc_of_Z d)%Qc = 0%Qc.
Proof. rewrite Z2Qc_inj_0. unfold Qcdiv. apply Qcmult_0_l. Qed.

Lemma sumOf_all_zero {A} (f : A -> Z) (l : list A) :
  Forall (fun a => f a = 0) l -> sumOf f l = 0.
Proof.
  induction 1 as [|a l Ha _ IH]; [reflexivity|].
  rewrite sumOf_cons, Ha, IH. reflexivity.
Qed.

Lemma cachedTransferSize_zero (resource : Resource.t) :
  Resource.transferSize resource = 0 -> cachedTransferSize resource = 0.
Proof. unfold cachedTransferSize. now destruct (Resource.fromCache resource). Qed.

(** With sizes that are byte counts, the flagged bytes are part of the
    reload's bytes. *)
Lemma cached_le_transferred (l : list Resource.t) :
  Forall (fun r => 0 <= Resource.transferSize r) l ->
  0 <= sumOf cachedTransferSize l <= sumOf Resource.transferSize l.
Proof.
  induction 1 as [|r l Hr _ IH]; [cbn; lia|].
  rewrite !sumOf_cons. unfold cachedTransferSize at 1 3.
  destruct (Resource.fromCache r); lia.
Qed.

(** With byte counts for sizes and a positive page weight the ratio is a
    non-negative rational. *)
Lemma dataReloadRatio_nonneg (initialResources reloadResources : list Resource.t) :
  Forall (fun r => 0 <= Resource.transferSize r) reloadResources ->
  0 < sumOf Resource.transferSize initialResources ->
  exists q : Qc,
    dataReloadRatio (value (computeMetrics initialResources reloadResources true))
    = Some (Finite q)
    /\ (0 ≤ q)%Qc.
Proof.
  intros Hbytes Hpw. rewrite computeMetrics_ratio_computed.
  rewrite js_div_nonzero by lia. eexists. split; [reflexivity|].
  apply quotient_nonneg; [assumption|].
  pose proof (cached_le_transferred _ Hbytes). lia.
Qed.

(** Closes [js_div n d = Finite q] on numerals with [d] non-zero. *)
Ltac ratio_by_computation :=
  rewrite js_div_nonzero by discriminate;
  do 2 f_equal; apply Qc_is_canon; reflexivity.

Lemma js_div_zero_divisor (n : Z) :
  js_div n 0 = match n ?= 0 with
               | Eq => NaN
               | Gt => PosInfinity
               | Lt => NegInfinity
               end.
Proof. reflexivity. Qed.

(** C3, at the empty page.  Both loads captured nothing: the page weight is
    0 and the ratio returned is [NaN], not 1. *)
Lemma empty_page_ratio_is_NaN :
  let metrics := value (computeMetrics [] [] true) in
  pageWeight metrics = 0
  /\ dataReloadRatio metrics = Some NaN
  /\ dataReloadRatio metrics <> Some (Finite 1%Qc).
Proof. cbv zeta. split; [reflexivity|]. split; [reflexivity|discriminate]. Qed.

(** C3, as the code has it.  When the initial resources sum to a
    [pageWeight] of 0 the division is carried out with a zero divisor: the
    ratio is [NaN] when the reload transferred no byte outside the flagged
    ones, an infinity otherwise, and never a finite number. *)
Theorem dataReloadRatio_zero_pageWeight
    (initialResources reloadResources : list Resource.t) :
  let metrics := value (computeMetrics initialResources reloadResources true) in
  let fetched :=
    sumOf Resource.transferSize reloadResources
    - sumOf cachedTransferSize reloadResources in
  pageWeight metrics = 0 ->
  (fetched = 0 -> dataReloadRatio metrics = Some NaN)
  /\ (0 < fetched -> dataReloadRatio metrics = Some PosInfinity)
  /\ (fetched < 0 -> dataReloadRatio metrics = Some NegInfinity)
  /\ (forall q, dataReloadRatio metrics <> Some (Finite q)).
Proof.
  cbv zeta. rewrite computeMetrics_pageWeight, computeMetrics_ratio_computed.
  intros ->. rewrite js_div_zero_divisor.
  set (fetched := _ - _).
  destruct (Z.compare_spec fetched 0) as [E|L|G]; repeat split;
    intros; try reflexivity; try lia; discriminate.
Qed.

Lemma dataReloadRatio_zero_pageWeight_witness :
  dataReloadRatio (value (computeMetrics [] [] true)) = Some NaN
  /\ dataReloadRatio (value (computeMetrics [] uncachedScript true)) = Some PosInfinity.
Proof.
  split.
  - apply (proj1 (dataReloadRatio_zero_pageWeight [] [] eq_refl)). reflexivity.
  - apply (proj1 (proj2 (dataReloadRatio_zero_pageWeight [] uncachedScript eq_refl))).
    reflexivity.
Defined.

(** C4, at two loads of one image.  A reload whose only resource has
    [transferSize] 0 and no cache flag yields ratio 0, not 1; a reload
    that transfers 200 bytes against an initial 100 yields ratio 2,
    above 1. *)
Lemma reload_ratio_neither_one_nor_bounded :
  (0 < pageWeight (value (computeMetrics coldImage silentReload true))
   /\ Forall (fun r => Resource.transferSize r = 0 /\ Resource.fromCache r = false)
        silentReload
   /\ dataReloadRatio (value (computeMetrics coldImage silentReload true))
      = Some (Finite 0%Qc)
   /\ dataReloadRatio (value (computeMetrics coldImage silentReload true))
      <> Some (Finite 1%Qc))
  /\ (0 < pageWeight (value (computeMetrics coldImage heavierReload true))
      /\ dataReloadRatio (value (computeMetrics coldImage heavierReload true))
         = Some (Finite (Qc_of_Z 2))
      /\ ~ (Qc_of_Z 2 ≤ 1)%Qc).
Proof.
  assert (dataReloadRatio (value (computeMetrics coldImage silentReload true))
          = Some (Finite 0%Qc)) as E0.
  { rewrite computeMetrics_ratio_computed.
    change (Some (js_div 0 100) = Some (Finite 0%Qc)).
    ratio_by_computation. }
  split; [split; [reflexivity|split; [|split]]|split; [reflexivity|split]].
  - repeat constructor.
  - exact E0.
  - rewrite E0. discriminate.
  - rewrite computeMetrics_ratio_computed.
    change (Some (js_div 200 100) = Some (Finite (Qc_of_Z 2))).
    ratio_by_computation.
  - apply Qclt_not_le. reflexivity.
Qed.

(** C4, as the code has it.  With a positive [pageWeight] the ratio is the
    finite quotient of the reload bytes not flagged [fromCache] by the page
    weight: 0 when every reload resource has [transferSize] 0, equal to 1
    exactly when those bytes equal the page weight, and at most 1 exactly
    when they do not exceed it. *)
Theorem dataReloadRatio_positive_pageWeight
    (initialResources reloadResources : list Resource.t) :
  let metrics := value (computeMetrics initialResources reloadResources true) in
  let fetched :=
    sumOf Resource.transferSize reloadResources
    - sumOf cachedTransferSize reloadResources in
  0 < pageWeight metrics ->
  exists q : Qc,
    dataReloadRatio metrics = Some (Finite q)
    /\ q = (Qc_of_Z fetched / Qc_of_Z (pageWeight metrics))%Qc
    /\ (Forall (fun r => Resource.transferSize r = 0) reloadResources -> q = 0%Qc)
    /\ (q = 1%Qc <-> fetched = pageWeight metrics)
    /\ ((q ≤ 1)%Qc <-> fetched <= pageWeight metrics).
Proof.
  cbv zeta. rewrite computeMetrics_pageWeight, computeMetrics_ratio_computed.
  intros Hpw. eexists. rewrite js_div_nonzero by lia.
  split; [reflexivity|]. split; [reflexivity|]. split; [|split].
  - intros Hzero.
    rewrite (sumOf_all_zero Resource.transferSize) by exact Hzero.
    rewrite (sumOf_all_zero cachedTransferSize).
    + apply quotient_of_zero.
    + revert Hzero. apply List.Forall_impl. intros r. apply cachedTransferSize_zero.
  - now apply quotient_eq_1.
  - now apply quotient_le_1.
Qed.

Lemma dataReloadRatio_positive_pageWeight_witness :
  exists q : Qc,
    dataReloadRatio (value (computeMetrics coldImage silentReload true)) = Some (Finite q)
    /\ q = 0%Qc.
Proof.
  destruct (dataReloadRatio_positive_pageWeight coldImage silentReload)
    as (q & Hq & _ & Hzero & _).
  - reflexivity.
  - exists q. split; [exact Hq|]. apply Hzero. repeat constructor.
Defined.

(** * A pre-supplied reload ratio *)

Lemma measure_dataReloadRatio browser url config :
  dataReloadRatio (value (measurePageImpactMetrics browser url config))
  = dataReloadRatio
      (value (computeMetrics
                (value (loadPageResources (fst (browser url))))
                (value (loadPageResources (snd (browser url))))
                (computeReloadRatioOf config))).
Proof. unfold measurePageImpactMetrics. now rewrite !value_cbind. Qed.

Lemma computeReloadRatioOf_supplied config x :
  Config.dataReloadRatio config = Some x ->
  computeReloadRatioOf config = negb (number_truthy x).
Proof. intros E. unfold computeReloadRatioOf. now rewrite E. Qed.

Lemma executeInput_options browser config input :
  Output.options (value (executeInput browser config input))
  = let ratio :=
      dataReloadRatio
        (value (measurePageImpactMetrics browser (PluginParams.url input) config)) in
    match PluginParams.options input, ratio with
    | Some o, _ => Some (<["dataReloadRatio" := ratioValue ratio]> o)
    | None, Some x =>
        if number_truthy x then Some {["dataReloadRatio" := JSNum x]} else None
    | None, None => None
    end.
Proof.
  unfold executeInput. rewrite value_cbind. cbn [value fst creturn Output.options].
  cbv zeta.
  destruct (PluginParams.options input) as [o|]; [reflexivity|].
  destruct (dataReloadRatio _) as [x|]; [|reflexivity].
  destruct (number_truthy x); reflexivity.
Qed.

(** C5, at a supplied ratio of one half.  The plugin's output does not
    carry the value: without [options] on the input the output has none,
    and with them its [dataReloadRatio] is [undefined]. *)
Lemma supplied_ratio_not_in_output :
  Config.dataReloadRatio (withRatio half) = Some half
  /\ Output.options (value (executeInput examplePage (withRatio half) bareInput)) = None
  /\ Output.options (value (executeInput examplePage (withRatio half) inputWithOptions))
       ≫= (fun o => o !! "dataReloadRatio")
     = Some JSUndefined
  /\ Some JSUndefined <> Some (JSNum half).
Proof.
  split; [reflexivity|]. split; [|split; [|discriminate]].
  - rewrite executeInput_options, measure_dataReloadRatio.
    rewrite (computeReloadRatioOf_supplied _ half) by reflexivity.
    change (negb (number_truthy half)) with false.
    now rewrite computeMetrics_ratio_skipped.
  - rewrite executeInput_options, measure_dataReloadRatio.
    rewrite (computeReloadRatioOf_supplied _ half) by reflexivity.
    change (negb (number_truthy half)) with false.
    rewrite computeMetrics_ratio_skipped. cbn.
    now rewrite lookup_insert_eq.
Qed.

(** A supplied ratio of 0 is falsy: the ratio is computed all the same. *)
Lemma supplied_zero_is_recomputed :
  computeReloadRatioOf (withRatio (Finite 0%Qc)) = true
  /\ dataReloadRatio
       (value (measurePageImpactMetrics examplePage "https://example.com"
                 (withRatio (Finite 0%Qc))))
     = Some (Finite (Q2Qc (2 # 5))).
Proof.
  split; [reflexivity|].
  rewrite measure_dataReloadRatio.
  change (computeReloadRatioOf (withRatio (Finite 0%Qc))) with true.
  rewrite computeMetrics_ratio_computed.
  change (Some (js_div 40 100) = Some (Finite (Q2Qc (2 # 5)))).
  ratio_by_computation.
Qed.

(** C5, as the code has it.  A supplied ratio that is truthy (any number
    but 0) turns [computeReloadRatio] off, [computeMetrics] then returns
    [dataReloadRatio = undefined], and the output's [options] are the
    input's with [dataReloadRatio] set to [undefined], or absent when the
    input has none. *)
Theorem supplied_ratio_skips_computation
    (browser : string -> Navigation * Navigation)
    (config : option Config.t) (input : PluginParams.t) (x : JSNumber) :
  Config.dataReloadRatio config = Some x ->
  number_truthy x = true ->
  computeReloadRatioOf config = false
  /\ (forall initialResources reloadResources,
        dataReloadRatio
          (value (computeMetrics initialResources reloadResources
                    (computeReloadRatioOf config))) = None)
  /\ dataReloadRatio
       (value (measurePageImpactMetrics browser (PluginParams.url input) config)) = None
  /\ Output.options (value (executeInput browser config input))
     = (fun o => <["dataReloadRatio" := JSUndefined]> o) <$> PluginParams.options input.
Proof.
  intros Hx Htruthy.
  assert (computeReloadRatioOf config = false) as Hoff.
  { rewrite (computeReloadRatioOf_supplied _ x Hx), Htruthy. reflexivity. }
  assert (dataReloadRatio
            (value (measurePageImpactMetrics browser (PluginParams.url input) config))
          = None) as Hnone.
  { rewrite measure_dataReloadRatio, Hoff. apply computeMetrics_ratio_skipped. }
  split; [exact Hoff|]. split; [|split; [exact Hnone|]].
  - intros. rewrite Hoff. apply computeMetrics_ratio_skipped.
  - rewrite executeInput_options, Hnone. cbv zeta.
    now destruct (PluginParams.options input).
Qed.

Lemma supplied_ratio_skips_computation_witness :
  computeReloadRatioOf (withRatio half) = false
  /\ Output.options (value (executeInput examplePage (withRatio half) inputWithOptions))
     = Some (<["dataReloadRatio" := JSUndefined]> {["dataReloadRatio" := JSNum half]}).
Proof.
  destruct (supplied_ratio_skips_computation examplePage (withRatio half)
              inputWithOptions half eq_refl eq_refl) as (Hoff & _ & _ & Hout).
  split; [exact Hoff|exact Hout].
Defined.

Lemma merged_config_prefers_config browser globalConfig config o :
  config ≫= Config.options = Some o ->
  Config.dataReloadRatio (Some (mergedValidatedConfig globalConfig config)) = o
  /\ forall inputs,
       value (execute browser globalConfig inputs config)
       = map (fun input =>
                value (executeInput browser
                         (Some (mergedValidatedConfig globalConfig config)) input))
           inputs.
Proof.
  intros Ho. split.
  - unfold mergedValidatedConfig. cbn. now rewrite Ho.
  - intros inputs. unfold execute. apply value_cmap.
Qed.

(** * Non-Network Filter *)

Lemma prefix_cons (a b : ascii) (s1 s2 : string) :
  String.prefix (String a s1) (String b s2)
  = if ascii_dec a b then String.prefix s1 s2 else false.
Proof. reflexivity. Qed.

Lemma prefix_empty (s : string) : String.prefix EmptyString s = true.
Proof. now destruct s. Qed.

Lemma urlScheme_cons (c : ascii) (rest : string) :
  urlScheme (String c rest)
  = if Ascii.eqb c ":" then Some EmptyString else String c <$> urlScheme rest.
Proof. reflexivity. Qed.

Lemma startsWith_scheme (scheme url : string) :
  noColon scheme = true ->
  startsWith url (scheme ++ ":") = true <-> urlScheme url = Some scheme.
Proof.
  unfold startsWith. revert url.
  induction scheme as [|a scheme IH]; intros url Hcolon.
  - change (EmptyString ++ ":")%string with (String ":" EmptyString).
    destruct url as [|c rest]; [split; intros ?; discriminate|].
    rewrite prefix_cons, urlScheme_cons, prefix_empty.
    destruct (ascii_dec ":" c) as [<-|Hne].
    + split; reflexivity.
    + destruct (Ascii.eqb_spec c ":") as [->|_]; [congruence|].
      split; [intros ?; discriminate|]. now destruct (urlScheme rest).
  - change (String a scheme ++ ":")%string with (String a (scheme ++ ":")).
    cbn [noColon] in Hcolon. apply andb_prop in Hcolon as [Ha Hrest].
    apply negb_true_iff in Ha. apply Ascii.eqb_neq in Ha.
    destruct url as [|c rest]; [split; intros ?; discriminate|].
    rewrite prefix_cons, urlScheme_cons.
    destruct (ascii_dec a c) as [<-|Hne].
    + destruct (Ascii.eqb_spec a ":") as [->|_]; [congruence|].
      rewrite (IH rest Hrest).
      destruct (urlScheme rest) as [s|]; cbn; [|split; intros ?; discriminate].
      split; [now intros [= ->]|now intros [= ->]].
    + split; [intros ?; discriminate|].
      destruct (Ascii.eqb_spec c ":") as [->|_]; [intros ?; discriminate|].
      destruct (urlScheme rest) as [s|]; cbn; [|intros ?; discriminate].
      intros [= E _]. now destruct Hne.
Qed.

Lemma schemes_have_no_colon : Forall (fun s => noColon s = true) NON_NETWORK_SCHEMES.
Proof. repeat constructor. Qed.

(** The test of the source is the test on the scheme. *)
Lemma isFromNonNetworkRequest_spec (response : HTTPResponse.t) :
  isFromNonNetworkRequest response = true
  <-> hasNonNetworkScheme (HTTPResponse.requestUrl response).
Proof.
  unfold isFromNonNetworkRequest, hasNonNetworkScheme. cbv zeta.
  rewrite existsb_exists.
  pose proof (proj1 (List.Forall_forall _ _) schemes_have_no_colon) as Hcolon.
  split; intros (scheme & Hin & H); exists scheme; split; try assumption.
  - now apply startsWith_scheme; [apply Hcolon|].
  - now apply startsWith_scheme; [apply Hcolon|].
Qed.

(** * Page Load Recorder *)

Lemma responseHandler_appends pageResources response :
  value (responseHandler pageResources response)
  = (pageResources ++ option_list (captured response))%list.
Proof.
  unfold captured, responseHandler.
  destruct (isFromNonNetworkRequest response || hasNoResponseBody response).
  - cbn. now rewrite app_nil_r.
  - destruct (HTTPResponse.buffer response) as [len|err].
    + reflexivity.
    + rewrite !value_cbind. cbn. now rewrite app_nil_r.
Qed.

Lemma recordResponses_appends responses pageResources :
  value (recordResponses pageResources responses)
  = (pageResources ++ omap captured responses)%list.
Proof.
  revert pageResources.
  induction responses as [|response rest IH]; intros pageResources.
  - cbn. now rewrite app_nil_r.
  - cbn [recordResponses]. rewrite value_cbind, IH, responseHandler_appends.
    rewrite <- app_assoc. f_equal. cbn [omap list_omap].
    unfold omap. now destruct (captured response).
Qed.

Lemma captured_Some response resource :
  captured response = Some resource ->
  isFromNonNetworkRequest response = false
  /\ hasNoResponseBody response = false
  /\ HTTPResponse.buffer response = BufferOk (ResourceBase.resourceSize resource)
  /\ ResourceBase.url resource = HTTPResponse.url response
  /\ ResourceBase.type resource = HTTPResponse.resourceType response
  /\ ResourceBase.fromCache resource = HTTPResponse.fromCache response
  /\ ResourceBase.fromServiceWorker resource = HTTPResponse.fromServiceWorker response.
Proof.
  unfold captured, responseHandler.
  destruct (isFromNonNetworkRequest response); [discriminate|].
  destruct (hasNoResponseBody response); [discriminate|].
  cbn [orb].
  destruct (HTTPResponse.buffer response) as [len|err]; [|discriminate].
  cbn. intros [= <-]. cbn. repeat split; reflexivity.
Qed.

Lemma hasNoResponseBody_unreachable (response : HTTPResponse.t) :
  hasNoResponseBody response = false.
Proof.
  unfold hasNoResponseBody.
  destruct (Z.eqb_spec (HTTPResponse.status response) 204) as [E|_]; [|reflexivity].
  destruct (Z.eqb_spec (HTTPResponse.status response) 304) as [E'|_]; [lia|reflexivity].
Qed.

(** C6, on the code.  [hasNoResponseBody] asks for a status that is 204 and
    304 at once, so it is false for every response; a 204 answer to a GET
    whose (empty) body can be read is appended to the resource list. *)
Theorem no_body_response_is_recorded :
  (forall response, hasNoResponseBody response = false)
  /\ HTTPResponse.status noContentResponse = 204
  /\ HTTPResponse.requestMethod noContentResponse <> "OPTIONS"
  /\ responseHandler [] noContentResponse
     = ([ {| ResourceBase.url := "https://example.com/api/ping";
             ResourceBase.resourceSize := 0;
             ResourceBase.type := ResourceType.fetch;
             ResourceBase.fromCache := false;
             ResourceBase.fromServiceWorker := false |} ], []).
Proof.
  split; [exact hasNoResponseBody_unreachable|].
  split; [reflexivity|]. split; [discriminate|reflexivity].
Qed.

Lemma merge_value pageResources cdpResponses :
  value (mergeCdpResponsesIntoResources pageResources cdpResponses)
  = map (fun resource =>
           Resource.spread resource
             (default 0 (cdpResponses !! ResourceBase.url resource)))
      pageResources.
Proof.
  unfold mergeCdpResponsesIntoResources. rewrite value_cmap.
  apply map_ext. intros resource. unfold mergeResource. cbv zeta.
  rewrite value_cbind. cbn.
  now destruct (cdpResponses !! ResourceBase.url resource).
Qed.

Lemma baseOf_spread resource ts : baseOf (Resource.spread resource ts) = resource.
Proof. now destruct resource. Qed.

Lemma loadPageResources_value navigation :
  value (loadPageResources navigation)
  = map (fun resource =>
           Resource.spread resource
             (default 0 (cdpResponses (cdpSession (cdpEvents navigation))
                           !! ResourceBase.url resource)))
      (omap captured (responses navigation)).
Proof.
  unfold loadPageResources. cbv zeta.
  rewrite value_cbind, merge_value, recordResponses_appends. reflexivity.
Qed.

(** C7.  A response whose request URL has a non-network scheme leaves the
    resource list as it is, whatever its status; and every resource of the
    list a navigation produces was captured from a response of that
    navigation whose request URL has none of these schemes. *)
Theorem non_network_never_recorded :
  (forall pageResources response,
      hasNonNetworkScheme (HTTPResponse.requestUrl response) ->
      responseHandler pageResources response = (pageResources, []))
  /\ (forall navigation resource,
        In resource (value (loadPageResources navigation)) ->
        exists response,
          In response (responses navigation)
          /\ ~ hasNonNetworkScheme (HTTPResponse.requestUrl response)
          /\ captured response = Some (baseOf resource)).
Proof.
  split.
  - intros pageResources response Hscheme.
    apply isFromNonNetworkRequest_spec in Hscheme.
    unfold responseHandler. now rewrite Hscheme.
  - intros navigation resource Hin.
    rewrite loadPageResources_value in Hin.
    apply in_map_iff in Hin as (base & <- & Hbase).
    apply list_elem_of_In, list_elem_of_omap in Hbase as (response & Hresp & Hcap).
    exists response. split; [now apply list_elem_of_In|].
    rewrite baseOf_spread. split; [|exact Hcap].
    rewrite <- isFromNonNetworkRequest_spec.
    apply captured_Some in Hcap as [-> _]. discriminate.
Qed.

Lemma non_network_never_recorded_witness :
  responseHandler [] (blobResponse 200) = ([], [])
  /\ exists response,
       In response (responses mixedNavigation)
       /\ ~ hasNonNetworkScheme (HTTPResponse.requestUrl response)
       /\ captured response
          = Some (ResourceBase.mk "https://example.com/logo.png" 120
                    ResourceType.image false false).
Proof.
  split.
  - apply (proj1 non_network_never_recorded).
    exists "blob". split; [now left|reflexivity].
  - apply (proj2 non_network_never_recorded mixedNavigation
             (Resource.mk "https://example.com/logo.png" 120
                ResourceType.image false false 100)).
    vm_compute. now left.
Defined.

(** * Transport-Session Correlator *)

Lemma onCdpEvent_pending maps event requestId :
  cdpIntermediateStore (onCdpEvent maps event) !! requestId = None
  <-> cdpIntermediateStore maps !! requestId = None
      /\ forall url, event <> ResponseReceived requestId url.
Proof.
  destruct event as [id url|id len]; cbn.
  - destruct (decide (id = requestId)) as [->|Hne].
    + rewrite lookup_insert_eq. split; [discriminate|].
      intros [_ H]. now destruct (H url).
    + rewrite lookup_insert_ne by assumption.
      split; [|now intros [? _]]. intros H. split; [assumption|]. congruence.
  - destruct (cdpIntermediateStore maps !! id); cbn;
      (split; [intros H; split; [assumption|discriminate]|now intros [? _]]).
Qed.

Lemma cdp_pending events maps requestId :
  cdpIntermediateStore (fold_left onCdpEvent events maps) !! requestId = None
  <-> cdpIntermediateStore maps !! requestId = None
      /\ forall url, ~ In (ResponseReceived requestId url) events.
Proof.
  revert maps. induction events as [|event events IH]; intros maps; cbn [fold_left].
  - split; [intros H; split; [assumption|intros ? []]|now intros [? _]].
  - rewrite IH, onCdpEvent_pending. split.
    + intros [[Hm Hev] Hrest]. split; [assumption|].
      intros url [E|Hin]; [now apply (Hev url)|now apply (Hrest url)].
    + intros [Hm Hall]. repeat split; try assumption.
      * intros url E. apply (Hall url). now left.
      * intros url Hin. apply (Hall url). now right.
Qed.

Lemma loadingFinished_unmatched maps requestId encodedDataLength :
  cdpIntermediateStore maps !! requestId = None ->
  onCdpEvent maps (LoadingFinished requestId encodedDataLength) = maps.
Proof. intros H. cbn. now rewrite H. Qed.

(** C8.  After any sequence of transport events, a "loading finished"
    event whose [requestId] was never announced by a "response received"
    event is processed without failure and changes neither map: no URL
    gains or changes a transfer size. *)
Theorem unmatched_loadingFinished_is_dropped
    (events : list CdpEvent) (requestId : string) (encodedDataLength : Z) :
  (forall url, ~ In (ResponseReceived requestId url) events) ->
  cdpSession (events ++ [LoadingFinished requestId encodedDataLength])
  = cdpSession events
  /\ forall url,
       cdpResponses
         (cdpSession (events ++ [LoadingFinished requestId encodedDataLength])) !! url
       = cdpResponses (cdpSession events) !! url.
Proof.
  intros Hnone.
  assert (cdpSession (events ++ [LoadingFinished requestId encodedDataLength])
          = cdpSession events) as E.
  { unfold cdpSession. rewrite fold_left_app. cbn [fold_left].
    apply loadingFinished_unmatched, cdp_pending. split; [reflexivity|exact Hnone]. }
  split; [exact E|]. intros url. now rewrite E.
Qed.

Lemma unmatched_loadingFinished_is_dropped_witness :
  cdpSession (pngEvents ++ [LoadingFinished "7.2" 512]) = cdpSession pngEvents.
Proof.
  apply (unmatched_loadingFinished_is_dropped pngEvents "7.2" 512).
  intros url [H|[H|[]]]; discriminate H.
Defined.

(** * Merge of the two streams *)

Lemma merge_output pageResources (cdpResponses : gmap string Z) :
  output (mergeCdpResponsesIntoResources pageResources cdpResponses)
  = map warnedFor
      (List.filter
         (fun resource =>
            bool_decide (cdpResponses !! ResourceBase.url resource = None))
         pageResources).
Proof.
  unfold mergeCdpResponsesIntoResources. rewrite output_cmap.
  induction pageResources as [|resource rest IH]; [reflexivity|].
  cbn [map concat List.filter]. rewrite IH.
  unfold mergeResource at 1. cbv zeta. rewrite output_cbind.
  destruct (cdpResponses !! ResourceBase.url resource); reflexivity.
Qed.

(** C9.  The merge is total and yields one [Resource] per record: at each
    position the [transferSize] is the [encodedDataLength] stored for the
    record's url, or 0 together with a warning naming the url when the map
    has no entry for it. *)
Theorem merge_resolves_transfer_size
    (pageResources : list ResourceBase.t) (cdpResponses : gmap string Z) :
  let merged := mergeCdpResponsesIntoResources pageResources cdpResponses in
  length (value merged) = length pageResources
  /\ (forall i resource,
        pageResources !! i = Some resource ->
        exists result,
          value merged !! i = Some result
          /\ match cdpResponses !! ResourceBase.url resource with
             | Some encodedDataLength =>
                 Resource.transferSize result = encodedDataLength
             | None =>
                 Resource.transferSize result = 0
                 /\ In (warnedFor resource) (output merged)
             end)
  /\ (forall message,
        In message (output merged) ->
        exists resource,
          In resource pageResources
          /\ cdpResponses !! ResourceBase.url resource = None
          /\ message = warnedFor resource).
Proof.
  cbv zeta. rewrite merge_value, merge_output. split; [apply length_map|]. split.
  - intros i resource Hi. eexists. split.
    + rewrite list_lookup_fmap_Some. eauto.
    + destruct (cdpResponses !! ResourceBase.url resource) as [len|] eqn:E;
        [reflexivity|]. split; [reflexivity|].
      apply in_map, filter_In. split.
      * apply list_elem_of_In. eapply list_elem_of_lookup_2. exact Hi.
      * now apply bool_decide_eq_true.
  - intros message Hin.
    apply in_map_iff in Hin as (resource & <- & Hres).
    apply filter_In in Hres as [Hres Habsent].
    apply bool_decide_eq_true in Habsent. eauto.
Qed.

Lemma merge_resolves_transfer_size_witness :
  exists result,
    value (mergeCdpResponsesIntoResources [pngBase; fontBase]
             {["https://example.com/logo.png" := 100]}) !! 1%nat = Some result
    /\ Resource.transferSize result = 0
    /\ In (warnedFor fontBase)
         (output (mergeCdpResponsesIntoResources [pngBase; fontBase]
                    {["https://example.com/logo.png" := 100]})).
Proof.
  exact (proj1 (proj2 (merge_resolves_transfer_size [pngBase; fontBase]
                         {["https://example.com/logo.png" := 100]}))
           1%nat fontBase eq_refl).
Defined.

(** C10.  The merged list has the length and the order of the input, and
    the resource at each position has the url, resourceSize, type,
    fromCache and fromServiceWorker of the record at that position. *)
Theorem merge_preserves_base
    (pageResources : list ResourceBase.t) (cdpResponses : gmap string Z) :
  let merged := value (mergeCdpResponsesIntoResources pageResources cdpResponses) in
  length merged = length pageResources
  /\ Forall2
       (fun resource result =>
          Resource.url result = ResourceBase.url resource
          /\ Resource.resourceSize result = ResourceBase.resourceSize resource
          /\ Resource.type result = ResourceBase.type resource
          /\ Resource.fromCache result = ResourceBase.fromCache resource
          /\ Resource.fromServiceWorker result = ResourceBase.fromServiceWorker resource)
       pageResources merged
  /\ map baseOf merged = pageResources.
Proof.
  cbv zeta. rewrite merge_value. split; [apply length_map|]. split.
  - induction pageResources as [|resource rest IH]; constructor.
    + repeat split; reflexivity.
    + exact IH.
  - rewrite map_map. rewrite <- (map_id pageResources) at 2.
    apply map_ext. intros resource. apply baseOf_spread.
Qed.

(** * Further properties of the module *)

Lemma sumOf_filter_type_nil (l : list Resource.t) k :
  filter (fun r => Resource.type r = k) l = [] <->
  ~ exists r, In r l /\ Resource.type r = k.
Proof.
  split.
  - intros E (r & Hin & Hk).
    assert (r ∈ filter (fun r => Resource.type r = k) l) as H.
    { apply list_elem_of_filter. split; [exact Hk|now apply list_elem_of_In]. }
    rewrite E in H. now apply not_elem_of_nil in H.
  - intros Hno. destruct (filter _ l) as [|r rs] eqn:E; [reflexivity|].
    exfalso. apply Hno. exists r.
    assert (r ∈ filter (fun r => Resource.type r = k) l) as H
      by (rewrite E; apply list_elem_of_here).
    apply list_elem_of_filter in H as [Hk Hin]. split; [now apply list_elem_of_In|exact Hk].
Qed.

(** X1.  Per type, [resourceTypeWeights] holds the sum of [transferSize]
    over the initial resources of that type, and has no property for a
    type that no initial resource has. *)
Theorem weight_per_type
    (initialResources reloadResources : list Resource.t) (computeReloadRatio : bool)
    (k : ResourceType.t) :
  let weights :=
    resourceTypeWeights
      (value (computeMetrics initialResources reloadResources computeReloadRatio)) in
  let ofType := filter (fun r => Resource.type r = k) initialResources in
  ((exists r, In r initialResources /\ Resource.type r = k) ->
   JSObject.get weights k = Some (sumOf Resource.transferSize ofType))
  /\ ((forall r, In r initialResources -> Resource.type r <> k) ->
      JSObject.get weights k = None).
Proof.
  cbv zeta. rewrite computeMetrics_resourceTypeWeights, get_fold_weighResource.
  cbn [JSObject.get JSObject.empty]. split.
  - intros Hex. destruct (filter _ initialResources) as [|r rs] eqn:E; [|reflexivity].
    apply sumOf_filter_type_nil in E. contradiction.
  - intros Hnone.
    assert (filter (fun r => Resource.type r = k) initialResources = []) as ->; [|reflexivity].
    apply sumOf_filter_type_nil. intros (r & Hin & Hk). now apply (Hnone r).
Qed.

Lemma weight_per_type_witness :
  JSObject.get
    (resourceTypeWeights (value (computeMetrics exampleInitial exampleReload true)))
    ResourceType.image = Some 100
  /\ JSObject.get
       (resourceTypeWeights (value (computeMetrics exampleInitial exampleReload true)))
       ResourceType.font = None.
Proof.
  split.
  - apply (proj1 (weight_per_type exampleInitial exampleReload true ResourceType.image)).
    eexists. split; [now left|reflexivity].
  - apply (proj2 (weight_per_type exampleInitial exampleReload true ResourceType.font)).
    intros r [<-|[<-|[]]]; discriminate.
Defined.

Lemma get_Some_key (o : JSObject.t) k : is_Some (JSObject.get o k) -> k ∈ JSObject.keys o.
Proof.
  induction o as [|[k0 v0] o IH]; cbn; [intros [? [=]]|].
  destruct (decide (k0 = k)) as [->|Hne]; [intros _; apply list_elem_of_here|].
  intros H. apply list_elem_of_further. now apply IH.
Qed.

Lemma keys_fold_weighResource (l : list Resource.t) (acc : JSObject.t) :
  JSObject.keys (fold_left weighResource l acc)
  = (JSObject.keys acc
     ++ filter (fun k => k ∉ JSObject.keys acc) (firstOccurrences (map Resource.type l)))%list.
Proof.
  revert acc; induction l as [|r l IH]; intros acc; cbn [fold_left map firstOccurrences].
  - now rewrite filter_nil, app_nil_r.
  - rewrite IH. unfold weighResource.
    destruct (JSObject.get acc (Resource.type r)) as [w|] eqn:Hget.
    + assert (Resource.type r ∈ JSObject.keys acc) as Hin
        by (apply get_Some_key; rewrite Hget; eauto).
      rewrite JSObjectFacts.keys_set_present by (rewrite Hget; eauto).
      f_equal. rewrite filter_cons_False by tauto.
      rewrite list_filter_filter. apply list_filter_iff.
      intros k. split; [|tauto]. intros Hk. split; [exact Hk|congruence].
    + pose proof (JSObjectFacts.get_None_not_key _ _ Hget) as Hnotin.
      rewrite JSObjectFacts.keys_set_absent by assumption.
      rewrite filter_cons_True by assumption.
      rewrite <- app_assoc. cbn [app]. do 2 f_equal.
      rewrite list_filter_filter. apply list_filter_iff.
      intros k. rewrite not_elem_of_app, list_elem_of_singleton. tauto.
Qed.

Lemma firstOccurrences_NoDup (types : list ResourceType.t) : NoDup (firstOccurrences types).
Proof.
  induction types as [|k rest IH]; cbn [firstOccurrences]; [constructor|].
  constructor; [|now apply list.NoDup_filter].
  rewrite list_elem_of_filter. tauto.
Qed.

Lemma firstOccurrences_elem_of (types : list ResourceType.t) k :
  k ∈ firstOccurrences types <-> k ∈ types.
Proof.
  induction types as [|k0 rest IH]; cbn [firstOccurrences]; [reflexivity|].
  rewrite !elem_of_cons, list_elem_of_filter, IH.
  destruct (decide (k = k0)); tauto.
Qed.

(** X2.  The keys of [resourceTypeWeights] are the types of the initial
    resources, each once, in the order in which the types first occur. *)
Theorem weight_keys_in_first_occurrence_order
    (initialResources reloadResources : list Resource.t) (computeReloadRatio : bool) :
  let weights :=
    resourceTypeWeights
      (value (computeMetrics initialResources reloadResources computeReloadRatio)) in
  JSObject.keys weights = firstOccurrences (map Resource.type initialResources)
  /\ NoDup (JSObject.keys weights)
  /\ forall k, k ∈ JSObject.keys weights
               <-> exists r, r ∈ initialResources /\ Resource.type r = k.
Proof.
  cbv zeta. rewrite computeMetrics_resourceTypeWeights, keys_fold_weighResource.
  cbn [JSObject.keys JSObject.empty map app].
  assert (forall l : list ResourceType.t, filter (fun k => k ∉ @nil ResourceType.t) l = l) as Hall.
  { intros l. induction l as [|k l IH]; [reflexivity|].
    rewrite filter_cons_True by apply not_elem_of_nil. now rewrite IH. }
  rewrite Hall. split; [reflexivity|]. split; [apply firstOccurrences_NoDup|].
  intros k. rewrite firstOccurrences_elem_of, list_elem_of_fmap.
  split; intros (r & H1 & H2); exists r; split; auto.
Qed.

(** * What [computeMetrics] logs and what it ignores *)

Lemma computeMetrics_output initialResources reloadResources b :
  output (computeMetrics initialResources reloadResources b)
  = if b && (0 <? sumOf cachedTransferSize initialResources)
    then [ConsoleWarn warnInitialCache] else [].
Proof.
  unfold computeMetrics; cbv zeta. rewrite !output_cbind.
  destruct b; [|reflexivity].
  rewrite !output_cbind, fold_left_addIfFromCache. cbn [andb].
  replace (0 + sumOf cachedTransferSize initialResources)
    with (sumOf cachedTransferSize initialResources) by lia.
  destruct (0 <? sumOf cachedTransferSize initialResources); reflexivity.
Qed.

(** X3.  [computeMetrics] logs one warning, and only when it computes the
    ratio and the initial load has bytes flagged [fromCache]; when the
    ratio is skipped it logs nothing, whatever the initial load holds. *)
Theorem initial_cache_warning
    (initialResources reloadResources : list Resource.t) (computeReloadRatio : bool) :
  (computeReloadRatio = true ->
   0 < sumOf cachedTransferSize initialResources ->
   output (computeMetrics initialResources reloadResources computeReloadRatio)
   = [ConsoleWarn ["Initial page load contained resources from cache."]])
  /\ (sumOf cachedTransferSize initialResources <= 0 ->
      output (computeMetrics initialResources reloadResources computeReloadRatio) = [])
  /\ (computeReloadRatio = false ->
      output (computeMetrics initialResources reloadResources computeReloadRatio) = []).
Proof.
  rewrite computeMetrics_output. repeat split.
  - intros -> Hpos. cbn [andb].
    now destruct (Z.ltb_spec 0 (sumOf cachedTransferSize initialResources)); [|lia].
  - intros Hle. rewrite andb_comm.
    now destruct (Z.ltb_spec 0 (sumOf cachedTransferSize initialResources)); [lia|].
  - now intros ->.
Qed.

Lemma initial_cache_warning_witness :
  output (computeMetrics cachedInitial exampleReload true)
  = [ConsoleWarn ["Initial page load contained resources from cache."]]
  /\ output (computeMetrics exampleInitial exampleReload true) = []
  /\ output (computeMetrics cachedInitial exampleReload false) = [].
Proof.
  split; [|split].
  - apply (proj1 (initial_cache_warning cachedInitial exampleReload true));
      reflexivity.
  - apply (proj1 (proj2 (initial_cache_warning exampleInitial exampleReload true))).
    vm_compute. discriminate.
  - apply (proj2 (proj2 (initial_cache_warning cachedInitial exampleReload false))).
    reflexivity.
Defined.

(** X4.  When sizes are byte counts, the page weight is positive and the
    reload transfers no more than the initial load, the ratio is a rational
    between 0 and 1. *)
Theorem dataReloadRatio_in_unit_interval
    (initialResources reloadResources : list Resource.t) :
  Forall (fun r => 0 <= Resource.transferSize r) reloadResources ->
  0 < sumOf Resource.transferSize initialResources ->
  sumOf Resource.transferSize reloadResources
    <= sumOf Resource.transferSize initialResources ->
  exists q : Qc,
    dataReloadRatio (value (computeMetrics initialResources reloadResources true))
    = Some (Finite q)
    /\ (0 ≤ q)%Qc /\ (q ≤ 1)%Qc.
Proof.
  intros Hbytes Hpw Hle. rewrite computeMetrics_ratio_computed.
  rewrite js_div_nonzero by lia. eexists. split; [reflexivity|].
  pose proof (cached_le_transferred _ Hbytes). split.
  - apply quotient_nonneg; [assumption|lia].
  - apply quotient_le_1; [assumption|lia].
Qed.

Lemma dataReloadRatio_in_unit_interval_witness :
  exists q : Qc,
    dataReloadRatio (value (computeMetrics exampleInitial exampleReload true))
    = Some (Finite q)
    /\ (0 ≤ q)%Qc /\ (q ≤ 1)%Qc.
Proof.
  apply (dataReloadRatio_in_unit_interval exampleInitial exampleReload).
  - repeat constructor; cbn; lia.
  - reflexivity.
  - cbn. lia.
Defined.

Lemma sumOf_Permutation {A} (f : A -> Z) (l1 l2 : list A) :
  l1 ≡ₚ l2 -> sumOf f l1 = sumOf f l2.
Proof.
  induction 1 as [|x l1 l2 _ IH|x y l|l1 l2 l3 _ IH1 _ IH2];
    rewrite ?sumOf_cons; lia.
Qed.

(** X5.  The order in which the resources were recorded does not matter:
    permuting either list changes neither the page weight, nor the weight
    of any type, nor the ratio. *)
Theorem metrics_invariant_under_permutation
    (initialResources initialResources' reloadResources reloadResources'
       : list Resource.t) (computeReloadRatio : bool) :
  initialResources ≡ₚ initialResources' ->
  reloadResources ≡ₚ reloadResources' ->
  let metrics := value (computeMetrics initialResources reloadResources computeReloadRatio) in
  let metrics' := value (computeMetrics initialResources' reloadResources' computeReloadRatio) in
  pageWeight metrics = pageWeight metrics'
  /\ dataReloadRatio metrics = dataReloadRatio metrics'
  /\ forall k, JSObject.get (resourceTypeWeights metrics) k
               = JSObject.get (resourceTypeWeights metrics') k.
Proof.
  intros Hi Hr. cbv zeta. split; [|split].
  - rewrite !computeMetrics_pageWeight. now apply sumOf_Permutation.
  - destruct computeReloadRatio.
    + rewrite !computeMetrics_ratio_computed.
      now rewrite (sumOf_Permutation _ _ _ Hi), (sumOf_Permutation Resource.transferSize _ _ Hr),
        (sumOf_Permutation cachedTransferSize _ _ Hr).
    + now rewrite !computeMetrics_ratio_skipped.
  - intros k. rewrite !computeMetrics_resourceTypeWeights, !get_fold_weighResource.
    cbn [JSObject.get JSObject.empty].
    assert (filter (fun r => Resource.type r = k) initialResources
            ≡ₚ filter (fun r => Resource.type r = k) initialResources') as Hf
      by now rewrite Hi.
    revert Hf.
    generalize (filter (fun r => Resource.type r = k) initialResources).
    generalize (filter (fun r => Resource.type r = k) initialResources').
    intros f' f Hf. destruct f as [|a l], f' as [|a' l']; try reflexivity.
    + now apply Permutation_nil_cons in Hf.
    + symmetry in Hf. now apply Permutation_nil_cons in Hf.
    + f_equal. now apply sumOf_Permutation.
Qed.

Lemma metrics_invariant_under_permutation_witness :
  pageWeight (value (computeMetrics exampleInitial exampleReload true))
  = pageWeight (value (computeMetrics (rev exampleInitial) (rev exampleReload) true))
  /\ dataReloadRatio (value (computeMetrics exampleInitial exampleReload true))
     = dataReloadRatio
         (value (computeMetrics (rev exampleInitial) (rev exampleReload) true)).
Proof.
  destruct (metrics_invariant_under_permutation exampleInitial (rev exampleInitial)
              exampleReload (rev exampleReload) true) as (Hw & Hr & _).
  - apply perm_swap.
  - apply perm_swap.
  - split; [exact Hw|exact Hr].
Defined.

Lemma fetched_is_unflagged (l : list Resource.t) :
  sumOf Resource.transferSize l - sumOf cachedTransferSize l
  = sumOf Resource.transferSize (filter (fun r => Resource.fromCache r = false) l).
Proof.
  induction l as [|r l IH]; [reflexivity|].
  rewrite filter_cons, !sumOf_cons. unfold cachedTransferSize at 1.
  destruct (Resource.fromCache r) eqn:E.
  - rewrite decide_False by discriminate. lia.
  - rewrite decide_True by reflexivity. rewrite sumOf_cons. lia.
Qed.

Lemma unflagged_has_no_cached (l : list Resource.t) :
  sumOf cachedTransferSize (filter (fun r => Resource.fromCache r = false) l) = 0.
Proof.
  induction l as [|r l IH]; [reflexivity|].
  rewrite filter_cons. destruct (decide (Resource.fromCache r = false)) as [E|_]; [|exact IH].
  rewrite sumOf_cons, IH. unfold cachedTransferSize. rewrite E. reflexivity.
Qed.

(** X6.  The reload resources flagged [fromCache] cancel out of the ratio:
    it is the ratio obtained from the reload list without them, and the
    quotient of the unflagged reload bytes by the initial bytes. *)
Theorem flagged_reload_resources_cancel
    (initialResources reloadResources : list Resource.t) :
  let unflagged := filter (fun r => Resource.fromCache r = false) reloadResources in
  dataReloadRatio (value (computeMetrics initialResources reloadResources true))
  = dataReloadRatio (value (computeMetrics initialResources unflagged true))
  /\ dataReloadRatio (value (computeMetrics initialResources reloadResources true))
     = Some (js_div (sumOf Resource.transferSize unflagged)
                    (sumOf Resource.transferSize initialResources)).
Proof.
  cbv zeta. rewrite !computeMetrics_ratio_computed.
  rewrite unflagged_has_no_cached, Z.sub_0_r, fetched_is_unflagged. split; reflexivity.
Qed.

Lemma fold_weighResource_ext (l l' : list Resource.t) (acc : JSObject.t) :
  map (fun r => (Resource.type r, Resource.transferSize r)) l
  = map (fun r => (Resource.type r, Resource.transferSize r)) l' ->
  fold_left weighResource l acc = fold_left weighResource l' acc.
Proof.
  revert l' acc; induction l as [|r l IH]; intros [|r' l'] acc; try discriminate;
    [reflexivity|].
  cbn [map fold_left]. intros [= Ht Hs Hrest].
  unfold weighResource at 2 4. rewrite Ht, Hs. now apply IH.
Qed.

Lemma sumOf_ext_map {A B} (f : A -> Z) (g : A -> B) (h : B -> Z) (l l' : list A) :
  (forall a, f a = h (g a)) -> map g l = map g l' -> sumOf f l = sumOf f l'.
Proof.
  intros Hf. revert l'; induction l as [|a l IH]; intros [|a' l']; try discriminate;
    [reflexivity|].
  cbn [map]. intros [= Ha Hrest]. rewrite !sumOf_cons, !Hf, Ha. f_equal. now apply IH.
Qed.

(** X7.  The metrics read the type and transfer size of the initial
    resources and the transfer size and cache flag of the reload resources,
    and nothing else: two runs that agree on these return the same result,
    whatever the urls, the decoded sizes, the service-worker flags and the
    cache flags of the initial load. *)
Theorem metrics_read_sizes_types_and_reload_flags
    (initialResources initialResources' reloadResources reloadResources'
       : list Resource.t) (computeReloadRatio : bool) :
  map (fun r => (Resource.type r, Resource.transferSize r)) initialResources
    = map (fun r => (Resource.type r, Resource.transferSize r)) initialResources' ->
  map (fun r => (Resource.transferSize r, Resource.fromCache r)) reloadResources
    = map (fun r => (Resource.transferSize r, Resource.fromCache r)) reloadResources' ->
  value (computeMetrics initialResources reloadResources computeReloadRatio)
  = value (computeMetrics initialResources' reloadResources' computeReloadRatio).
Proof.
  intros Hi Hr.
  pose proof (computeMetrics_resourceTypeWeights initialResources reloadResources
                computeReloadRatio) as W.
  pose proof (computeMetrics_resourceTypeWeights initialResources' reloadResources'
                computeReloadRatio) as W'.
  pose proof (computeMetrics_pageWeight initialResources reloadResources
                computeReloadRatio) as P.
  pose proof (computeMetrics_pageWeight initialResources' reloadResources'
                computeReloadRatio) as P'.
  assert (sumOf Resource.transferSize initialResources
          = sumOf Resource.transferSize initialResources') as Ei
    by (apply (sumOf_ext_map Resource.transferSize
                 (fun r => (Resource.type r, Resource.transferSize r)) snd
                 _ _ (fun _ => eq_refl) Hi)).
  assert (dataReloadRatio
            (value (computeMetrics initialResources reloadResources computeReloadRatio))
          = dataReloadRatio
              (value (computeMetrics initialResources' reloadResources'
                        computeReloadRatio))) as R.
  { destruct computeReloadRatio; [|now rewrite !computeMetrics_ratio_skipped].
    rewrite !computeMetrics_ratio_computed, Ei.
    rewrite (sumOf_ext_map Resource.transferSize
               (fun r => (Resource.transferSize r, Resource.fromCache r)) fst
               _ _ (fun _ => eq_refl) Hr).
    rewrite (sumOf_ext_map cachedTransferSize
               (fun r => (Resource.transferSize r, Resource.fromCache r))
               (fun p : Z * bool => if snd p then fst p else 0)
               _ _ (fun _ => eq_refl) Hr).
    reflexivity. }
  rewrite (fold_weighResource_ext _ _ _ Hi) in W. rewrite <- W' in W.
  rewrite Ei, <- P' in P.
  destruct (value (computeMetrics initialResources reloadResources computeReloadRatio)),
    (value (computeMetrics initialResources' reloadResources' computeReloadRatio)).
  cbn in *. congruence.
Qed.

Lemma metrics_read_sizes_types_and_reload_flags_witness :
  value (computeMetrics exampleInitial exampleReload true)
  = value (computeMetrics exampleInitialElsewhere exampleReload true).
Proof.
  apply (metrics_read_sizes_types_and_reload_flags exampleInitial exampleInitialElsewhere
           exampleReload exampleReload true); reflexivity.
Defined.

(** * What the recorder keeps and what it logs *)

Lemma captured_isRecorded (response : HTTPResponse.t) :
  captured response
  = if isRecorded response then Some (resourceBaseOf response) else None.
Proof.
  unfold captured, responseHandler, isRecorded, resourceBaseOf, bodyLength.
  rewrite hasNoResponseBody_unreachable, orb_false_r.
  destruct (isFromNonNetworkRequest response); [reflexivity|].
  destruct (HTTPResponse.buffer response); reflexivity.
Qed.

Lemma omap_captured (responses : list HTTPResponse.t) :
  omap captured responses = map resourceBaseOf (List.filter isRecorded responses).
Proof.
  induction responses as [|r rest IH]; [reflexivity|].
  cbn [omap list_omap List.filter]. rewrite captured_isRecorded.
  destruct (isRecorded r); cbn [map]; now rewrite <- IH.
Qed.

(** X8.  The recorder keeps exactly the responses whose request URL is a
    network URL and whose body can be read, whatever their status and
    method, in the order received and after the resources already there;
    each record carries the response's url, the length of its body, its
    type and its two cache-origin flags. *)
Theorem recorder_keeps_readable_network_responses
    (pageResources : list ResourceBase.t) (responses : list HTTPResponse.t) :
  value (recordResponses pageResources responses)
  = (pageResources ++ map resourceBaseOf (List.filter isRecorded responses))%list.
Proof.
  rewrite recordResponses_appends. f_equal.
  induction responses as [|response rest IH]; [reflexivity|].
  cbn [omap list_omap List.filter]. rewrite captured_isRecorded.
  destruct (isRecorded response); cbn [map]; now rewrite <- IH.
Qed.

Lemma responseHandler_output pageResources response :
  output (responseHandler pageResources response) = option_list (bodyError response).
Proof.
  unfold responseHandler, bodyError.
  rewrite hasNoResponseBody_unreachable, orb_false_r.
  destruct (isFromNonNetworkRequest response); [reflexivity|].
  destruct (HTTPResponse.buffer response); [reflexivity|].
  now rewrite output_cbind.
Qed.

(** X9.  The recorder logs one [console.error] for each network response
    whose body read is rejected, in order, and nothing else: a rejected
    read neither stops the recording nor is it attempted for a non-network
    response. *)
Theorem recorder_logs_rejected_reads
    (pageResources : list ResourceBase.t) (responses : list HTTPResponse.t) :
  output (recordResponses pageResources responses) = omap bodyError responses
  /\ (Forall (fun r => isFromNonNetworkRequest r = true) responses ->
      recordResponses pageResources responses = (pageResources, [])).
Proof.
  assert (forall rs acc, output (recordResponses acc rs) = omap bodyError rs) as Hout.
  { intros rs. induction rs as [|r rest IH]; intros acc; [reflexivity|].
    cbn [recordResponses]. rewrite output_cbind, IH, responseHandler_output.
    cbn [omap list_omap]. now destruct (bodyError r). }
  split; [apply Hout|].
  intros Hall.
  rewrite (surjective_pairing (recordResponses pageResources responses)).
  change (fst ?c) with (value c). change (snd ?c) with (output c).
  rewrite Hout, recordResponses_appends, omap_captured. f_equal.
  - induction Hall as [|r rest Hr _ IH]; [now rewrite app_nil_r|].
    cbn [List.filter]. unfold isRecorded at 1. now rewrite Hr.
  - induction Hall as [|r rest Hr _ IH]; [reflexivity|].
    cbn [omap list_omap]. unfold bodyError at 1. now rewrite Hr.
Qed.

Lemma recorder_logs_rejected_reads_witness :
  recordResponses [pngBase] [blobResponse 200; blobResponse 404] = ([pngBase], []).
Proof.
  apply (proj2 (recorder_logs_rejected_reads [pngBase] [blobResponse 200; blobResponse 404])).
  repeat constructor.
Defined.

(** X10.  The filter looks at the request URL alone and tests its scheme,
    the text before its first colon, case-sensitively against the six
    schemes: a URL without colon, and a URL with any other scheme, is a
    network URL. *)
Theorem non_network_test_is_scheme_test (response : HTTPResponse.t) :
  (isFromNonNetworkRequest response = true
   <-> exists scheme,
         In scheme ["blob"; "data"; "intent"; "file"; "filesystem"; "chrome-extension"]
         /\ urlScheme (HTTPResponse.requestUrl response) = Some scheme)
  /\ (urlScheme (HTTPResponse.requestUrl response) = None ->
      isFromNonNetworkRequest response = false)
  /\ (forall response',
        HTTPResponse.requestUrl response' = HTTPResponse.requestUrl response ->
        isFromNonNetworkRequest response' = isFromNonNetworkRequest response).
Proof.
  split; [apply isFromNonNetworkRequest_spec|]. split.
  - intros Hnone. destruct (isFromNonNetworkRequest response) eqn:E; [|reflexivity].
    apply isFromNonNetworkRequest_spec in E as (scheme & _ & Hs). congruence.
  - intros response' Hurl. unfold isFromNonNetworkRequest. now rewrite Hurl.
Qed.

Lemma non_network_test_is_scheme_test_witness :
  isFromNonNetworkRequest schemelessResponse = false
  /\ isFromNonNetworkRequest (blobResponse 200) = true.
Proof.
  split.
  - apply (proj1 (proj2 (non_network_test_is_scheme_test schemelessResponse))). reflexivity.
  - apply (proj1 (non_network_test_is_scheme_test (blobResponse 200))).
    exists "blob". split; [now left|reflexivity].
Defined.

(** * The correlator's maps over a run of events *)

Lemma cdpSession_snoc (events : list CdpEvent) (event : CdpEvent) :
  cdpSession (events ++ [event]) = onCdpEvent (cdpSession events) event.
Proof. unfold cdpSession. now rewrite fold_left_app. Qed.

Lemma cdp_pending_frame (events : list CdpEvent) (maps : CdpMaps) (requestId : string) :
  (forall url, ~ In (ResponseReceived requestId url) events) ->
  cdpIntermediateStore (fold_left onCdpEvent events maps) !! requestId
  = cdpIntermediateStore maps !! requestId.
Proof.
  revert maps. induction events as [|event events IH]; intros maps Hno; [reflexivity|].
  cbn [fold_left]. rewrite IH by (intros url Hin; apply (Hno url); now right).
  destruct event as [id url|id len]; cbn.
  - apply lookup_insert_ne. intros ->. apply (Hno url). now left.
  - now destruct (cdpIntermediateStore maps !! id).
Qed.

Lemma cdp_pending_Some (events : list CdpEvent) (requestId url : string) :
  cdpIntermediateStore (cdpSession events) !! requestId = Some url ->
  In (ResponseReceived requestId url) events.
Proof.
  induction events as [|event events IH] using rev_ind; [discriminate|].
  rewrite cdpSession_snoc, in_app_iff.
  destruct event as [id u|id len]; cbn.
  - destruct (decide (id = requestId)) as [->|Hne].
    + rewrite lookup_insert_eq. intros [= ->]. right. now left.
    + rewrite lookup_insert_ne by assumption. auto.
  - destruct (cdpIntermediateStore (cdpSession events) !! id); cbn; auto.
Qed.

(** X11.  A "response received" for a request followed, with no other
    "response received" for that request in between, by its "loading
    finished" resolves the url to the reported length, whatever came before
    them, earlier sizes for the same url included. *)
Theorem matched_pair_resolves_url
    (before between : list CdpEvent) (requestId url : string) (encodedDataLength : Z) :
  (forall url', ~ In (ResponseReceived requestId url') between) ->
  cdpResponses
    (cdpSession (before ++ ResponseReceived requestId url :: between
                   ++ [LoadingFinished requestId encodedDataLength])) !! url
  = Some encodedDataLength.
Proof.
  intros Hno.
  change (before ++ ResponseReceived requestId url :: between
            ++ [LoadingFinished requestId encodedDataLength])%list
    with (before ++ (ResponseReceived requestId url :: between)
            ++ [LoadingFinished requestId encodedDataLength])%list.
  rewrite app_assoc, cdpSession_snoc.
  assert (cdpIntermediateStore
            (cdpSession (before ++ ResponseReceived requestId url :: between))
            !! requestId = Some url) as Hpending.
  { unfold cdpSession. rewrite fold_left_app. cbn [fold_left].
    rewrite cdp_pending_frame by exact Hno. cbn. apply lookup_insert_eq. }
  cbn. rewrite Hpending. cbn. apply lookup_insert_eq.
Qed.

Lemma matched_pair_resolves_url_witness :
  cdpResponses
    (cdpSession ([ResponseReceived "7.1" "https://example.com/logo.png";
                  LoadingFinished "7.1" 100]
                   ++ ResponseReceived "7.9" "https://example.com/logo.png"
                   :: [ResponseReceived "7.3" "https://example.com/app.js"]
                   ++ [LoadingFinished "7.9" 64]))
    !! "https://example.com/logo.png"
  = Some 64.
Proof.
  apply (matched_pair_resolves_url
           [ResponseReceived "7.1" "https://example.com/logo.png";
            LoadingFinished "7.1" 100]
           [ResponseReceived "7.3" "https://example.com/app.js"]
           "7.9" "https://example.com/logo.png" 64).
  intros url' [H|[]]. discriminate H.
Defined.

Lemma resolved_sizes_come_from_matched_pairs_aux
    (events : list CdpEvent) (url : string) (encodedDataLength : Z) :
  cdpResponses (cdpSession events) !! url = Some encodedDataLength ->
  exists requestId, In (LoadingFinished requestId encodedDataLength) events.
Proof.
  induction events as [|event events IH] using rev_ind; [discriminate|].
  rewrite cdpSession_snoc.
  assert (cdpResponses (cdpSession events) !! url = Some encodedDataLength ->
          exists requestId,
            In (LoadingFinished requestId encodedDataLength) (events ++ [event])) as Hold.
  { intros H. destruct (IH H) as (id & Hin). exists id. apply in_app_iff. now left. }
  destruct event as [id u|id len]; cbn; [exact Hold|].
  destruct (cdpIntermediateStore (cdpSession events) !! id) as [u|]; cbn; [|exact Hold].
  destruct (decide (u = url)) as [->|Hne].
  - rewrite lookup_insert_eq. intros [= ->]. exists id. apply in_app_iff. right. now left.
  - rewrite lookup_insert_ne by assumption. exact Hold.
Qed.

(** X12.  Every transfer size the correlator holds comes from a matched
    pair in the right order: a "loading finished" event reporting that
    length for a request that an earlier "response received" event bound to
    that url.  A "loading finished" that comes before its "response
    received" resolves nothing. *)
Theorem resolved_sizes_come_from_matched_pairs
    (events : list CdpEvent) (url : string) (encodedDataLength : Z) :
  cdpResponses (cdpSession events) !! url = Some encodedDataLength ->
  exists before after requestId,
    events = (before ++ LoadingFinished requestId encodedDataLength :: after)%list
    /\ In (ResponseReceived requestId url) before.
Proof.
  induction events as [|event events IH] using rev_ind; [discriminate|].
  rewrite cdpSession_snoc.
  assert (cdpResponses (cdpSession events) !! url = Some encodedDataLength ->
          exists before after requestId,
            (events ++ [event])%list
            = (before ++ LoadingFinished requestId encodedDataLength :: after)%list
            /\ In (ResponseReceived requestId url) before) as Hold.
  { intros H. destruct (IH H) as (before & after & id & -> & Hin).
    exists before, (after ++ [event])%list, id.
    split; [now rewrite <- app_assoc|exact Hin]. }
  destruct event as [id u|id len]; cbn; [exact Hold|].
  destruct (cdpIntermediateStore (cdpSession events) !! id) as [u|] eqn:Hpending;
    cbn; [|exact Hold].
  destruct (decide (u = url)) as [->|Hne].
  - rewrite lookup_insert_eq. intros [= ->].
    exists events, [], id. split; [reflexivity|]. now apply cdp_pending_Some.
  - rewrite lookup_insert_ne by assumption. exact Hold.
Qed.

Lemma resolved_sizes_come_from_matched_pairs_witness :
  exists before after requestId,
    pngEvents = (before ++ LoadingFinished requestId 100 :: after)%list
    /\ In (ResponseReceived requestId "https://example.com/logo.png") before.
Proof.
  apply (resolved_sizes_come_from_matched_pairs pngEvents
           "https://example.com/logo.png" 100).
  reflexivity.
Defined.

(** * One navigation, end to end *)

Lemma loadPageResources_transferSize navigation resource :
  In resource (value (loadPageResources navigation)) ->
  Resource.transferSize resource
  = default 0 (cdpResponses (cdpSession (cdpEvents navigation))
                 !! Resource.url resource).
Proof.
  rewrite loadPageResources_value. intros Hin.
  apply in_map_iff in Hin as (base & <- & _). reflexivity.
Qed.

(** X13.  The url is the join key: two resources of one navigation with the
    same url carry the same transfer size, however many requests were made
    for it. *)
Theorem same_url_same_transfer_size
    (navigation : Navigation) (resource1 resource2 : Resource.t) :
  In resource1 (value (loadPageResources navigation)) ->
  In resource2 (value (loadPageResources navigation)) ->
  Resource.url resource1 = Resource.url resource2 ->
  Resource.transferSize resource1 = Resource.transferSize resource2.
Proof.
  intros H1 H2 Hurl.
  rewrite (loadPageResources_transferSize _ _ H1),
    (loadPageResources_transferSize _ _ H2), Hurl. reflexivity.
Qed.

(** X14.  When every length the transport reports is non-negative, so is
    the transfer size of every resource of the navigation. *)
Theorem transfer_sizes_are_byte_counts (navigation : Navigation) :
  Forall isByteCount (cdpEvents navigation) ->
  Forall (fun r => 0 <= Resource.transferSize r) (value (loadPageResources navigation)).
Proof.
  intros Hbytes. apply List.Forall_forall. intros resource Hin.
  rewrite (loadPageResources_transferSize _ _ Hin).
  destruct (cdpResponses (cdpSession (cdpEvents navigation)) !! Resource.url resource)
    as [len|] eqn:E; cbn; [|lia].
  apply resolved_sizes_come_from_matched_pairs_aux in E as (id & Hev).
  apply (proj1 (List.Forall_forall _ _) Hbytes) in Hev. exact Hev.
Qed.

Lemma transfer_sizes_are_byte_counts_witness :
  Forall (fun r => 0 <= Resource.transferSize r) (value (loadPageResources mixedNavigation)).
Proof.
  apply (transfer_sizes_are_byte_counts mixedNavigation).
  repeat constructor. cbn. lia.
Defined.

Lemma same_url_same_transfer_size_witness :
  Resource.transferSize
    (Resource.mk "https://example.com/logo.png" 120 ResourceType.image false false 100)
  = Resource.transferSize
      (Resource.mk "https://example.com/logo.png" 120 ResourceType.image true false 100).
Proof.
  apply (same_url_same_transfer_size repeatedNavigation); [| |reflexivity];
    vm_compute; [now left|right; now left].
Defined.



(** * What the plugin hands back *)

(** X16.  A ratio that was computed and is truthy is written to the
    output's [options] under [dataReloadRatio]; every other option of the
    input is kept as it is. *)
Theorem computed_ratio_is_reported
    (browser : string -> Navigation * Navigation)
    (config : option Config.t) (input : PluginParams.t) (x : JSNumber) :
  dataReloadRatio
    (value (measurePageImpactMetrics browser (PluginParams.url input) config)) = Some x ->
  number_truthy x = true ->
  exists options,
    Output.options (value (executeInput browser config input)) = Some options
    /\ options !! "dataReloadRatio" = Some (JSNum x)
    /\ forall key, key <> "dataReloadRatio" ->
         options !! key = PluginParams.options input ≫= (fun o => o !! key).
Proof.
  intros Hx Htruthy. rewrite executeInput_options, Hx. cbv zeta.
  destruct (PluginParams.options input) as [o|]; [|rewrite Htruthy];
    eexists; (split; [reflexivity|]); cbn; split.
  - apply lookup_insert_eq.
  - intros key Hkey. now apply lookup_insert_ne.
  - apply lookup_singleton_eq.
  - intros key Hkey. now apply lookup_singleton_ne.
Qed.

Lemma examplePage_ratio :
  dataReloadRatio
    (value (measurePageImpactMetrics examplePage "https://example.com" None))
  = Some (Finite (Q2Qc (2 # 5))).
Proof.
  rewrite measure_dataReloadRatio.
  change (computeReloadRatioOf None) with true.
  rewrite computeMetrics_ratio_computed.
  change (Some (js_div 40 100) = Some (Finite (Q2Qc (2 # 5)))).
  ratio_by_computation.
Qed.

Lemma computed_ratio_is_reported_witness :
  exists options,
    Output.options (value (executeInput examplePage None bareInput)) = Some options
    /\ options !! "dataReloadRatio" = Some (JSNum (Finite (Q2Qc (2 # 5)))).
Proof.
  destruct (computed_ratio_is_reported examplePage None bareInput
              (Finite (Q2Qc (2 # 5))) examplePage_ratio eq_refl)
    as (options & Hout & Hratio & _).
  exists options. split; [exact Hout|exact Hratio].
Defined.

(** X17.  A computed ratio that is falsy, 0 or NaN, reaches the output only
    through the input's own [options]: for an input without [options] the
    output has none, and the ratio is not reported. *)
Theorem falsy_ratio_needs_input_options
    (browser : string -> Navigation * Navigation)
    (config : option Config.t) (input : PluginParams.t) (x : JSNumber) :
  dataReloadRatio
    (value (measurePageImpactMetrics browser (PluginParams.url input) config)) = Some x ->
  number_truthy x = false ->
  (PluginParams.options input = None ->
   Output.options (value (executeInput browser config input)) = None)
  /\ (forall o, PluginParams.options input = Some o ->
        Output.options (value (executeInput browser config input))
        = Some (<["dataReloadRatio" := JSNum x]> o)).
Proof.
  intros Hx Hfalsy. rewrite executeInput_options, Hx. cbv zeta. split.
  - intros ->. now rewrite Hfalsy.
  - now intros o ->.
Qed.

Lemma fullyCachedPage_ratio :
  dataReloadRatio
    (value (measurePageImpactMetrics fullyCachedPage "https://example.com" None))
  = Some (Finite 0%Qc).
Proof.
  rewrite measure_dataReloadRatio.
  change (computeReloadRatioOf None) with true.
  rewrite computeMetrics_ratio_computed.
  change (Some (js_div 0 100) = Some (Finite 0%Qc)).
  ratio_by_computation.
Qed.

Lemma falsy_ratio_needs_input_options_witness :
  Output.options (value (executeInput fullyCachedPage None bareInput)) = None.
Proof.
  apply (proj1 (falsy_ratio_needs_input_options fullyCachedPage None bareInput
                  (Finite 0%Qc) fullyCachedPage_ratio eq_refl)).
  reflexivity.
Defined.

Lemma executeInput_url_bytes browser config input :
  Output.url (value (executeInput browser config input)) = PluginParams.url input
  /\ Output.network_data_bytes (value (executeInput browser config input))
     = sumOf Resource.transferSize
         (value (loadPageResources (fst (browser (PluginParams.url input))))).
Proof.
  unfold executeInput. rewrite value_cbind. cbn [value fst creturn Output.url
    Output.network_data_bytes]. split; [reflexivity|].
  unfold measurePageImpactMetrics. rewrite !value_cbind.
  apply computeMetrics_pageWeight.
Qed.

(** X18.  [execute] returns one output per input, in the order of the
    inputs, each with its input's url and with, under
    ['network/data/bytes'], the sum of the transfer sizes recorded on the
    initial load of that url; neither the configuration nor the reload
    changes that number. *)
Theorem execute_reports_initial_bytes_per_input
    (browser : string -> Navigation * Navigation)
    (globalConfig config : option Config.t) (inputs : list PluginParams.t) :
  let outputs := value (execute browser globalConfig inputs config) in
  map Output.url outputs = map PluginParams.url inputs
  /\ map Output.network_data_bytes outputs
     = map (fun input =>
              sumOf Resource.transferSize
                (value (loadPageResources (fst (browser (PluginParams.url input))))))
         inputs.
Proof.
  cbv zeta. unfold execute. rewrite value_cmap, !map_map.
  split; apply map_ext; intros input; apply executeInput_url_bytes.
Qed.

(** X19.  The two configurations are merged key by key, not deeply: an
    [options] object in the call's config replaces the global one whole, so
    a global [dataReloadRatio] is dropped when the call's [options] lack
    one; without [options] in the call's config the global ratio is used. *)
Theorem config_options_replace_global_options
    (globalConfig config : option Config.t) :
  (forall o, config ≫= Config.options = Some o ->
     Config.dataReloadRatio (Some (mergedValidatedConfig globalConfig config)) = o)
  /\ (config ≫= Config.options = None ->
      Config.dataReloadRatio (Some (mergedValidatedConfig globalConfig config))
      = Config.dataReloadRatio globalConfig)
  /\ (config ≫= Config.options = Some None ->
      computeReloadRatioOf (Some (mergedValidatedConfig globalConfig config)) = true).
Proof.
  unfold computeReloadRatioOf, mergedValidatedConfig, Config.dataReloadRatio.
  cbn [Config.options]. split; [|split].
  - now intros o ->.
  - intros ->. destruct globalConfig as [g|]; reflexivity.
  - now intros ->.
Qed.

Lemma config_options_replace_global_options_witness :
  computeReloadRatioOf
    (Some (mergedValidatedConfig (withRatio half) (Some (Config.mk (Some None))))) = true
  /\ Config.dataReloadRatio (Some (mergedValidatedConfig (withRatio half) (Some (Config.mk None))))
     = Some half.
Proof.
  split.
  - apply (proj2 (proj2 (config_options_replace_global_options (withRatio half)
                           (Some (Config.mk (Some None)))))).
    reflexivity.
  - apply (proj1 (proj2 (config_options_replace_global_options (withRatio half)
                           (Some (Config.mk None))))).
    reflexivity.
Defined.

(** * Request headers *)

Lemma requestHandler_lookup headersConfig (requestHeaders : gmap string string) name :
  requestHandler headersConfig requestHeaders !! name
  = match
      (if decide (name = "accept-encoding") then
         match headersConfig ≫= HeadersConfig.accept_encoding with
         | Some e =>
             if acceptEncoding_truthy e then Some (acceptEncoding_value e) else None
         | None => None
         end
       else None),
      (if decide (name = "accept") then
         match headersConfig ≫= HeadersConfig.accept with
         | Some accept => if string_truthy accept then Some accept else None
         | None => None
         end
       else None)
    with
    | Some v, _ => Some v
    | None, Some v => Some v
    | None, None => requestHeaders !! name
    end.
Proof.
  unfold requestHandler. cbv zeta. rewrite !lookup_union.
  set (encodingPart :=
         match headersConfig ≫= HeadersConfig.accept_encoding with
         | Some e =>
             if acceptEncoding_truthy e
             then ({["accept-encoding" := acceptEncoding_value e]} : gmap string string)
             else ∅
         | None => ∅
         end).
  set (acceptPart :=
         match headersConfig ≫= HeadersConfig.accept with
         | Some accept =>
             if string_truthy accept
             then ({["accept" := accept]} : gmap string string) else ∅
         | None => ∅
         end).
  assert (encodingPart !! name
          = if decide (name = "accept-encoding") then
              match headersConfig ≫= HeadersConfig.accept_encoding with
              | Some e =>
                  if acceptEncoding_truthy e then Some (acceptEncoding_value e) else None
              | None => None
              end
            else None) as ->.
  { subst encodingPart.
    destruct (headersConfig ≫= HeadersConfig.accept_encoding) as [e|];
      [destruct (acceptEncoding_truthy e)|];
      rewrite ?lookup_empty, ?lookup_singleton; repeat case_decide; congruence. }
  assert (acceptPart !! name
          = if decide (name = "accept") then
              match headersConfig ≫= HeadersConfig.accept with
              | Some accept => if string_truthy accept then Some accept else None
              | None => None
              end
            else None) as ->.
  { subst acceptPart.
    destruct (headersConfig ≫= HeadersConfig.accept) as [a|];
      [destruct (string_truthy a)|];
      rewrite ?lookup_empty, ?lookup_singleton; repeat case_decide; congruence. }
  repeat match goal with
         | |- context [match ?x with Some _ => _ | None => _ end] => destruct x
         | |- context [if ?b then _ else _] => destruct b
         end;
    destruct (requestHeaders !! name); reflexivity.
Qed.

(** X20.  The handler touches two headers only: any header other than
    [accept] and [accept-encoding] continues as the browser set it, and
    without a header configuration the request continues unchanged. *)
Theorem requestHandler_keeps_other_headers
    (headersConfig : option HeadersConfig.t) (requestHeaders : gmap string string) :
  (forall name, name <> "accept" -> name <> "accept-encoding" ->
     requestHandler headersConfig requestHeaders !! name = requestHeaders !! name)
  /\ requestHandler None requestHeaders = requestHeaders
  /\ requestHandler (Some (HeadersConfig.mk None None)) requestHeaders = requestHeaders.
Proof.
  split; [|split].
  - intros name H1 H2. rewrite requestHandler_lookup.
    now rewrite !decide_False by assumption.
  - apply map_eq. intros name. rewrite requestHandler_lookup. cbn.
    now repeat case_decide.
  - apply map_eq. intros name. rewrite requestHandler_lookup. cbn.
    now repeat case_decide.
Qed.

Lemma requestHandler_keeps_other_headers_witness :
  requestHandler (Some (HeadersConfig.mk (Some "image/webp") (Some (EncodingString "br"))))
    browserHeaders !! "user-agent"
  = Some "HeadlessChrome".
Proof.
  rewrite (proj1 (requestHandler_keeps_other_headers
                    (Some (HeadersConfig.mk (Some "image/webp") (Some (EncodingString "br"))))
                    browserHeaders) "user-agent"); [reflexivity|discriminate|discriminate].
Defined.

(** X21.  A configured [accept] that is not the empty string replaces the
    browser's [accept] header; an empty or absent one leaves the browser's
    header, present or not, as it is. *)
Theorem requestHandler_accept
    (headersConfig : HeadersConfig.t) (requestHeaders : gmap string string) :
  (forall accept,
     HeadersConfig.accept headersConfig = Some accept -> accept <> "" ->
     requestHandler (Some headersConfig) requestHeaders !! "accept" = Some accept)
  /\ ((HeadersConfig.accept headersConfig = None
       \/ HeadersConfig.accept headersConfig = Some "") ->
      requestHandler (Some headersConfig) requestHeaders !! "accept"
      = requestHeaders !! "accept").
Proof.
  split.
  - intros accept Ha Hne. rewrite requestHandler_lookup. cbn. rewrite Ha.
    unfold string_truthy. destruct (String.eqb_spec accept ""); [contradiction|].
    reflexivity.
  - intros Ha. rewrite requestHandler_lookup. cbn.
    destruct Ha as [->| ->]; reflexivity.
Qed.

Lemma requestHandler_accept_witness :
  requestHandler (Some (HeadersConfig.mk (Some "image/webp") None)) browserHeaders
    !! "accept" = Some "image/webp"
  /\ requestHandler (Some (HeadersConfig.mk (Some "") None)) browserHeaders
       !! "accept" = Some "text/html,*/*".
Proof.
  split.
  - apply (proj1 (requestHandler_accept (HeadersConfig.mk (Some "image/webp") None)
                    browserHeaders)); [reflexivity|discriminate].
  - rewrite (proj2 (requestHandler_accept (HeadersConfig.mk (Some "") None)
                      browserHeaders)); [reflexivity|now right].
Defined.

(** X22.  A configured [accept-encoding] array always replaces the
    browser's header, by its elements joined with a comma and a space, by
    the empty string when the array is empty; a configured string replaces
    it unless it is empty, in which case the browser's header stays. *)
Theorem requestHandler_accept_encoding
    (headersConfig : HeadersConfig.t) (requestHeaders : gmap string string) :
  (forall encodings,
     HeadersConfig.accept_encoding headersConfig = Some (EncodingArray encodings) ->
     requestHandler (Some headersConfig) requestHeaders !! "accept-encoding"
     = Some (String.concat ", " encodings))
  /\ (HeadersConfig.accept_encoding headersConfig = Some (EncodingArray []) ->
      requestHandler (Some headersConfig) requestHeaders !! "accept-encoding" = Some "")
  /\ (forall encoding,
        HeadersConfig.accept_encoding headersConfig = Some (EncodingString encoding) ->
        encoding <> "" ->
        requestHandler (Some headersConfig) requestHeaders !! "accept-encoding"
        = Some encoding)
  /\ ((HeadersConfig.accept_encoding headersConfig = None
       \/ HeadersConfig.accept_encoding headersConfig = Some (EncodingString "")) ->
      requestHandler (Some headersConfig) requestHeaders !! "accept-encoding"
      = requestHeaders !! "accept-encoding").
Proof.
  repeat split.
  - intros encodings He. rewrite requestHandler_lookup. cbn. now rewrite He.
  - intros He. rewrite requestHandler_lookup. cbn. now rewrite He.
  - intros encoding He Hne. rewrite requestHandler_lookup. cbn. rewrite He. cbn.
    unfold string_truthy. destruct (String.eqb_spec encoding ""); [contradiction|].
    reflexivity.
  - intros He. rewrite requestHandler_lookup. cbn.
    destruct He as [->| ->]; cbn; now destruct (HeadersConfig.accept headersConfig) as [a|];
      [destruct (string_truthy a)|].
Qed.

Lemma requestHandler_accept_encoding_witness :
  requestHandler (Some (HeadersConfig.mk None (Some (EncodingArray ["gzip"; "br"]))))
    browserHeaders !! "accept-encoding" = Some "gzip, br"
  /\ requestHandler (Some (HeadersConfig.mk None (Some (EncodingArray []))))
       browserHeaders !! "accept-encoding" = Some ""
  /\ requestHandler (Some (HeadersConfig.mk None (Some (EncodingString ""))))
       browserHeaders !! "accept-encoding" = Some "gzip, deflate, br".
Proof.
  split; [|split].
  - apply (proj1 (requestHandler_accept_encoding
                    (HeadersConfig.mk None (Some (EncodingArray ["gzip"; "br"])))
                    browserHeaders) ["gzip"; "br"]). reflexivity.
  - apply (proj1 (proj2 (requestHandler_accept_encoding
                           (HeadersConfig.mk None (Some (EncodingArray [])))
                           browserHeaders))). reflexivity.
  - rewrite (proj2 (proj2 (proj2 (requestHandler_accept_encoding
                                    (HeadersConfig.mk None (Some (EncodingString "")))
                                    browserHeaders)))); [reflexivity|now right].
Defined.

(** * Scrolling to the bottom *)

Section ScrollFacts.
Variable scrollHeight : nat -> Z.

Lemma scrollLoop_result (fuel tick : nat) (totalHeight : Z) (runs : nat) (total : Z) :
  scrollLoop scrollHeight fuel tick totalHeight = Some (runs, total) ->
  (tick < runs <= tick + fuel)%nat
  /\ total = totalHeight + distance * Z.of_nat (runs - tick)
  /\ scrollHeight (runs - 1)%nat <= total
  /\ forall i, (tick <= i < runs - 1)%nat ->
       totalHeight + distance * Z.of_nat (i - tick + 1) < scrollHeight i.
Proof.
  revert tick totalHeight.
  induction fuel as [|fuel IH]; intros tick totalHeight; cbn [scrollLoop]; [discriminate|].
  cbv zeta. destruct (Z.leb_spec (scrollHeight tick) (totalHeight + distance)) as [Hle|Hgt].
  - intros [= <- <-]. replace (S tick - tick)%nat with 1%nat by lia.
    replace (S tick - 1)%nat with tick by lia.
    split; [lia|]. split; [lia|]. split; [lia|]. intros i Hi. lia.
  - intros Hrec. destruct (IH _ _ Hrec) as (Hruns & Htotal & Hstop & Hbefore).
    split; [lia|]. split; [|split; [exact Hstop|]].
    + rewrite Htotal. replace (runs - tick)%nat with (S (runs - S tick)) by lia.
      rewrite Nat2Z.inj_succ. lia.
    + intros i Hi. destruct (decide (i = tick)) as [->|Hne].
      * replace (tick - tick + 1)%nat with 1%nat by lia. lia.
      * specialize (Hbefore i ltac:(lia)).
        replace (i - tick + 1)%nat with (S (i - S tick + 1)) by lia.
        rewrite Nat2Z.inj_succ. lia.
Qed.

Lemma scrollLoop_more_fuel (fuel fuel' tick : nat) (totalHeight : Z) result :
  scrollLoop scrollHeight fuel tick totalHeight = Some result ->
  (fuel <= fuel')%nat ->
  scrollLoop scrollHeight fuel' tick totalHeight = Some result.
Proof.
  revert fuel' tick totalHeight.
  induction fuel as [|fuel IH]; intros fuel' tick totalHeight; [discriminate|].
  intros Hrun Hle. destruct fuel' as [|fuel']; [lia|].
  cbn [scrollLoop] in *. cbv zeta in *.
  destruct (scrollHeight tick <=? totalHeight + distance); [exact Hrun|].
  apply IH; [exact Hrun|lia].
Qed.

Lemma scrollLoop_bounded (bound : Z) (fuel tick : nat) (totalHeight : Z) :
  (forall i, scrollHeight i <= bound) ->
  (1 <= fuel)%nat ->
  bound <= totalHeight + distance * Z.of_nat fuel ->
  exists runs total,
    scrollLoop scrollHeight fuel tick totalHeight = Some (runs, total).
Proof.
  intros Hbound. revert tick totalHeight.
  induction fuel as [|fuel IH]; intros tick totalHeight Hfuel Hreach; [lia|].
  cbn [scrollLoop]. cbv zeta.
  destruct (Z.leb_spec (scrollHeight tick) (totalHeight + distance)) as [Hle|Hgt];
    [eauto|].
  pose proof (Hbound tick). unfold distance in *.
  apply IH; lia.
Qed.
End ScrollFacts.

Lemma scroll_stops_at_first_reached_height_aux
    (scrollHeight : nat -> Z) (fuel runs : nat) (total : Z) :
  scrollToBottomOfPage scrollHeight fuel = Some (runs, total) ->
  (1 <= runs <= fuel)%nat
  /\ total = 100 * Z.of_nat runs
  /\ scrollHeight (runs - 1)%nat <= total.
Proof.
  unfold scrollToBottomOfPage. intros Hrun.
  apply scrollLoop_result in Hrun as (Hruns & Htotal & Hstop & _).
  unfold distance in *. replace (runs - 0)%nat with runs in * by lia.
  repeat split; lia.
Qed.

Lemma scroll_resolves_on_bounded_page_aux
    (scrollHeight : nat -> Z) (bound : Z) (fuel : nat) :
  (forall i, scrollHeight i <= bound) ->
  (1 <= fuel)%nat ->
  (bound + 99) / 100 <= Z.of_nat fuel ->
  exists runs total,
    scrollToBottomOfPage scrollHeight fuel = Some (runs, total)
    /\ Z.of_nat runs <= Z.max 1 ((bound + 99) / 100).
Proof.
  intros Hbound Hfuel Hdiv.
  set (enough := Z.to_nat (Z.max 1 ((bound + 99) / 100))).
  assert (Z.of_nat enough = Z.max 1 ((bound + 99) / 100)) as Henough
    by (subst enough; lia).
  destruct (scrollLoop_bounded scrollHeight bound enough 0 0 Hbound) as (runs & total & Hrun).
  - lia.
  - rewrite Henough. unfold distance.
    pose proof (Z.div_mod (bound + 99) 100 ltac:(lia)).
    pose proof (Z.mod_pos_bound (bound + 99) 100 ltac:(lia)). lia.
  - exists runs, total. split.
    + unfold scrollToBottomOfPage. apply (scrollLoop_more_fuel _ enough); [exact Hrun|lia].
    + apply scrollLoop_result in Hrun as (Hruns & _). lia.
Qed.

(** X23.  When the scrolling resolves it has scrolled at least once, by 100
    per run of the timer, and it resolves on the first run on which the
    distance scrolled reaches the height read on that run: on every earlier
    run the height read was still beyond it. *)
Theorem scroll_stops_at_first_reached_height
    (scrollHeight : nat -> Z) (fuel runs : nat) (total : Z) :
  scrollToBottomOfPage scrollHeight fuel = Some (runs, total) ->
  (1 <= runs <= fuel)%nat
  /\ total = 100 * Z.of_nat runs
  /\ scrollHeight (runs - 1)%nat <= total
  /\ forall i, (i < runs - 1)%nat -> 100 * (Z.of_nat i + 1) < scrollHeight i.
Proof.
  unfold scrollToBottomOfPage. intros Hrun.
  apply scrollLoop_result in Hrun as (Hruns & Htotal & Hstop & Hbefore).
  unfold distance in *. replace (runs - 0)%nat with runs in * by lia.
  split; [lia|]. split; [lia|]. split; [lia|].
  intros i Hi. specialize (Hbefore i ltac:(lia)).
  replace (i - 0 + 1)%nat with (S i) in Hbefore by lia.
  rewrite Nat2Z.inj_succ in Hbefore. lia.
Qed.

Lemma scroll_stops_at_first_reached_height_witness :
  (1 <= 3 <= 5)%nat /\ 300 = 100 * Z.of_nat 3.
Proof.
  destruct (scroll_stops_at_first_reached_height (fun _ => 250) 5 3 300 eq_refl)
    as (H1 & H2 & _).
  split; [exact H1|exact H2].
Defined.

(** X24.  On a page whose height never exceeds a bound the scrolling
    resolves: after at most one run per 100 of the bound, rounded up, and
    at least one; more runs allowed change nothing. *)
Theorem scroll_resolves_on_bounded_page
    (scrollHeight : nat -> Z) (bound : Z) (fuel : nat) :
  (forall i, scrollHeight i <= bound) ->
  (1 <= fuel)%nat ->
  (bound + 99) / 100 <= Z.of_nat fuel ->
  exists runs total,
    scrollToBottomOfPage scrollHeight fuel = Some (runs, total)
    /\ Z.of_nat runs <= Z.max 1 ((bound + 99) / 100).
Proof.
  intros Hbound Hfuel Hdiv.
  set (enough := Z.to_nat (Z.max 1 ((bound + 99) / 100))).
  assert (Z.of_nat enough = Z.max 1 ((bound + 99) / 100)) as Henough
    by (subst enough; lia).
  assert (bound <= 0 + distance * Z.of_nat enough) as Hreach.
  { rewrite Henough. unfold distance.
    pose proof (Z.div_mod (bound + 99) 100 ltac:(lia)).
    pose proof (Z.mod_pos_bound (bound + 99) 100 ltac:(lia)). lia. }
  destruct (scrollLoop_bounded scrollHeight bound enough 0 0 Hbound ltac:(lia) Hreach)
    as (runs & total & Hrun).
  exists runs, total. split.
  - unfold scrollToBottomOfPage. apply (scrollLoop_more_fuel _ enough); [exact Hrun|lia].
  - apply scrollLoop_result in Hrun as (Hruns & _). lia.
Qed.

Lemma scroll_resolves_on_bounded_page_witness :
  exists runs total,
    scrollToBottomOfPage (fun i => if (i <? 2)%nat then 250 else 180) 10
    = Some (runs, total)
    /\ Z.of_nat runs <= Z.max 1 ((250 + 99) / 100).
Proof.
  apply (scroll_resolves_on_bounded_page
           (fun i => if (i <? 2)%nat then 250 else 180) 250 10).
  - intros i. destruct (i <? 2)%nat; lia.
  - lia.
  - vm_compute. discriminate.
Defined.

(** X25.  On a page of constant height the scrolling takes the height
    divided by 100, rounded up, runs, one run on an empty page, and has
    then scrolled 100 per run. *)
Theorem scroll_on_constant_height (height : Z) (fuel : nat) :
  (1 <= fuel)%nat ->
  (height + 99) / 100 <= Z.of_nat fuel ->
  scrollToBottomOfPage (fun _ => height) fuel
  = Some (Z.to_nat (Z.max 1 ((height + 99) / 100)),
          100 * Z.max 1 ((height + 99) / 100)).
Proof.
  intros Hfuel Hdiv.
  destruct (scroll_resolves_on_bounded_page_aux (fun _ => height) height fuel)
    as (runs & total & Hrun & Hmax); try assumption; [intros; lia|].
  rewrite Hrun. unfold scrollToBottomOfPage in Hrun.
  apply scrollLoop_result in Hrun as (Hruns & Htotal & Hstop & Hbefore).
  unfold distance in *. replace (runs - 0)%nat with runs in * by lia.
  pose proof (Z.div_mod (height + 99) 100 ltac:(lia)) as Hdm.
  pose proof (Z.mod_pos_bound (height + 99) 100 ltac:(lia)) as Hmod.
  assert (Z.of_nat runs = Z.max 1 ((height + 99) / 100)) as Heq.
  { destruct (decide (runs = 1%nat)) as [->|Hne].
    - lia.
    - specialize (Hbefore (runs - 2)%nat ltac:(lia)).
      replace (runs - 2 - 0 + 1)%nat with (runs - 1)%nat in Hbefore by lia. lia. }
  f_equal. f_equal; [lia|]. rewrite Htotal, Heq. lia.
Qed.

Lemma scroll_on_constant_height_witness :
  scrollToBottomOfPage (fun _ => 250) 5 = Some (3%nat, 300)
  /\ scrollToBottomOfPage (fun _ => 0) 1 = Some (1%nat, 100).
Proof.
  split.
  - apply (scroll_on_constant_height 250 5); [lia|vm_compute; discriminate].
  - apply (scroll_on_constant_height 0 1); [lia|vm_compute; discriminate].
Defined.

(** X26.  On a page that at every run is taller than what has been
    scrolled after that run, the scrolling never resolves, however many
    runs it is given. *)
Theorem scroll_never_resolves_on_growing_page (scrollHeight : nat -> Z) (fuel : nat) :
  (forall i, 100 * (Z.of_nat i + 1) < scrollHeight i) ->
  scrollToBottomOfPage scrollHeight fuel = None.
Proof.
  intros Hgrow.
  destruct (scrollToBottomOfPage scrollHeight fuel) as [[runs total]|] eqn:Hrun;
    [|reflexivity].
  apply scroll_stops_at_first_reached_height_aux in Hrun as (Hruns & Htotal & Hstop).
  specialize (Hgrow (runs - 1)%nat).
  replace (Z.of_nat (runs - 1) + 1) with (Z.of_nat runs) in Hgrow by lia. lia.
Qed.

Lemma scroll_never_resolves_on_growing_page_witness :
  scrollToBottomOfPage (fun i => 100 * Z.of_nat i + 150) 1000 = None.
Proof.
  apply (scroll_never_resolves_on_growing_page (fun i => 100 * Z.of_nat i + 150) 1000).
  intros i. lia.
Defined.

(** * The report file *)

Lemma escapeCharacter_not_escaped (c : ascii) :
  ~ In (escapeCharacter c) ESCAPED_CHARACTERS.
Proof.
  unfold escapeCharacter.
  destruct (existsb (Ascii.eqb c) ESCAPED_CHARACTERS) eqn:E.
  - cbn. intros H. repeat destruct H as [H|H]; try discriminate H. exact H.
  - intros Hin. apply not_true_iff_false in E. apply E.
    apply existsb_exists. exists c. split; [exact Hin|apply Ascii.eqb_refl].
Qed.

Lemma escapeCharacter_fixed (c : ascii) :
  ~ In c ESCAPED_CHARACTERS -> escapeCharacter c = c.
Proof.
  intros Hnot. unfold escapeCharacter.
  destruct (existsb (Ascii.eqb c) ESCAPED_CHARACTERS) eqn:E; [|reflexivity].
  apply existsb_exists in E as (c' & Hin & Heq).
  apply Ascii.eqb_eq in Heq. subst c'. contradiction.
Qed.

Lemma getEscapedFileName_characters (url : string) :
  list_ascii_of_string (getEscapedFileName url)
  = map escapeCharacter (list_ascii_of_string url).
Proof.
  unfold getEscapedFileName.
  induction url as [|c rest IH]; [reflexivity|]. cbn. now rewrite IH.
Qed.

Lemma getEscapedFileName_app (s1 s2 : string) :
  getEscapedFileName (s1 ++ s2) = (getEscapedFileName s1 ++ getEscapedFileName s2)%string.
Proof.
  unfold getEscapedFileName.
  induction s1 as [|c rest IH]; [reflexivity|].
  change (String c rest ++ s2)%string with (String c (rest ++ s2)).
  cbn [mapCharacters]. rewrite IH. reflexivity.
Qed.

Lemma getEscapedFileName_fixed (url : string) :
  (forall c, In c (list_ascii_of_string url) -> ~ In c ESCAPED_CHARACTERS) ->
  getEscapedFileName url = url.
Proof.
  unfold getEscapedFileName.
  induction url as [|c rest IH]; [reflexivity|]. intros Hall.
  cbn [mapCharacters]. rewrite escapeCharacter_fixed by (apply Hall; now left).
  rewrite IH; [reflexivity|]. intros c' Hin. apply Hall. now right.
Qed.

(** X27.  The escaped name has the length of the name it comes from and
    holds none of the ten escaped characters, so no path separator; a
    character that is not one of the ten stays where it is, and each of the
    ten becomes an underscore. *)
Theorem escaped_name_has_no_special_character (url : string) :
  String.length (getEscapedFileName url) = String.length url
  /\ (forall c, In c (list_ascii_of_string (getEscapedFileName url)) ->
        ~ In c ["/"; "\"; "?"; "%"; "*"; ":"; "|"; "034"; "<"; ">"]%char)
  /\ (forall i c, String.get i url = Some c ->
        String.get i (getEscapedFileName url)
        = Some (if bool_decide (In c ESCAPED_CHARACTERS) then "_"%char else c)).
Proof.
  split; [|split].
  - unfold getEscapedFileName. induction url as [|c rest IH]; [reflexivity|].
    cbn. now rewrite IH.
  - intros c. rewrite getEscapedFileName_characters, in_map_iff.
    intros (c' & <- & _). apply escapeCharacter_not_escaped.
  - unfold getEscapedFileName. induction url as [|c0 rest IH]; intros i c; [discriminate|].
    destruct i as [|i]; cbn [String.get mapCharacters].
    + intros [= ->]. f_equal. case_bool_decide as Hc.
      * unfold escapeCharacter.
        assert (existsb (Ascii.eqb c) ESCAPED_CHARACTERS = true) as ->; [|reflexivity].
        apply existsb_exists. exists c. split; [exact Hc|apply Ascii.eqb_refl].
      * now apply escapeCharacter_fixed.
    + apply IH.
Qed.

(** X28.  Escaping is idempotent, and leaves unchanged a name that holds
    none of the escaped characters. *)
Theorem escaping_is_idempotent (url : string) :
  getEscapedFileName (getEscapedFileName url) = getEscapedFileName url
  /\ ((forall c, In c (list_ascii_of_string url) -> ~ In c ESCAPED_CHARACTERS) ->
      getEscapedFileName url = url).
Proof.
  split; [|apply getEscapedFileName_fixed].
  apply getEscapedFileName_fixed. intros c.
  rewrite getEscapedFileName_characters, in_map_iff.
  intros (c' & <- & _). apply escapeCharacter_not_escaped.
Qed.

Lemma escaping_is_idempotent_witness :
  getEscapedFileName "lighthouse-report.html" = "lighthouse-report.html".
Proof.
  apply (proj2 (escaping_is_idempotent "lighthouse-report.html")).
  intros c Hin Hesc. cbn in Hin.
  repeat (destruct Hin as [<-|Hin];
          [cbn in Hesc; repeat (destruct Hesc as [Hesc|Hesc]; [discriminate Hesc|]);
           exact Hesc|]).
  exact Hin.
Defined.

Lemma escaped_name_has_no_special_character_witness :
  String.get 5 (getEscapedFileName "https://example.com") = Some "_"%char.
Proof.
  apply (proj2 (proj2 (escaped_name_has_no_special_character "https://example.com"))
           5%nat ":"%char).
  reflexivity.
Defined.

Lemma writeReportToFile_fileName lighthouseReport validatedInput files :
  fst (writeReportToFile lighthouseReport validatedInput files)
  = ("lighthouse-report-" ++ getEscapedFileName (ValidatedInput.url validatedInput)
       ++ "-" ++ getEscapedFileName (reportTimestamp validatedInput) ++ ".html")%string.
Proof.
  unfold writeReportToFile, reportTimestamp, string_truthy. cbv zeta. cbn [fst].
  rewrite !getEscapedFileName_app.
  change (getEscapedFileName "lighthouse-report-") with "lighthouse-report-".
  change (getEscapedFileName "-") with "-".
  change (getEscapedFileName ".html") with ".html".
  destruct (ValidatedInput.timer_start validatedInput) as [start|]; [|reflexivity].
  now destruct (String.eqb start "").
Qed.

(** X29.  The report is written under a name made of the prefix
    [lighthouse-report-], the escaped url, a dash, the escaped timestamp
    and [.html]; the name is returned, the file of that name then holds the
    report, an array report joined with single spaces, whatever it held
    before, and no other file changes. *)
Theorem report_is_written_under_escaped_name
    (lighthouseReport : LighthouseReport) (validatedInput : ValidatedInput.t)
    (files : gmap string string) :
  let fileName := fst (writeReportToFile lighthouseReport validatedInput files) in
  let files' := snd (writeReportToFile lighthouseReport validatedInput files) in
  fileName
  = ("lighthouse-report-" ++ getEscapedFileName (ValidatedInput.url validatedInput)
       ++ "-" ++ getEscapedFileName (reportTimestamp validatedInput) ++ ".html")%string
  /\ files' !! fileName = Some (reportContent lighthouseReport)
  /\ (forall path, path <> fileName -> files' !! path = files !! path)
  /\ (forall c, In c (list_ascii_of_string fileName) -> c <> "/"%char /\ c <> "\"%char).
Proof.
  cbv zeta. split; [apply writeReportToFile_fileName|].
  unfold writeReportToFile. cbv zeta. cbn [fst snd]. split; [|split].
  - rewrite lookup_insert_eq. now destruct lighthouseReport.
  - intros path Hne. now apply lookup_insert_ne.
  - intros c Hin.
    rewrite getEscapedFileName_characters, in_map_iff in Hin.
    destruct Hin as (c' & <- & _).
    pose proof (escapeCharacter_not_escaped c') as Hnot.
    split; intros E; apply Hnot; rewrite E; cbn; auto.
Qed.

(** X30.  The timestamp in the name is the input's ['timer/start'] when
    that is a non-empty string, else its [timestamp], and the word
    [undefined] when the input has neither. *)
Theorem report_name_prefers_timer_start
    (lighthouseReport : LighthouseReport) (validatedInput : ValidatedInput.t)
    (files : gmap string string) :
  let name stamp :=
    getEscapedFileName
      ("lighthouse-report-" ++ ValidatedInput.url validatedInput ++ "-" ++ stamp
         ++ ".html")%string in
  (forall start,
     ValidatedInput.timer_start validatedInput = Some start -> start <> "" ->
     fst (writeReportToFile lighthouseReport validatedInput files) = name start)
  /\ (forall stamp,
        (ValidatedInput.timer_start validatedInput = None
         \/ ValidatedInput.timer_start validatedInput = Some "") ->
        ValidatedInput.timestamp validatedInput = Some stamp ->
        fst (writeReportToFile lighthouseReport validatedInput files) = name stamp)
  /\ (ValidatedInput.timer_start validatedInput = None ->
      ValidatedInput.timestamp validatedInput = None ->
      fst (writeReportToFile lighthouseReport validatedInput files) = name "undefined").
Proof.
  cbv zeta. unfold writeReportToFile, string_truthy. cbv zeta. cbn [fst].
  split; [|split].
  - intros start -> Hne. now destruct (String.eqb_spec start ""); [contradiction|].
  - intros stamp [-> | ->] ->; reflexivity.
  - intros -> ->. reflexivity.
Qed.

Lemma report_name_prefers_timer_start_witness :
  fst (writeReportToFile (ReportString "<html></html>") timedInput ∅)
  = "lighthouse-report-https___example.com_a_b-2024-05-01T10_00_00.000Z.html".
Proof.
  rewrite (proj1 (report_name_prefers_timer_start (ReportString "<html></html>")
                    timedInput ∅) "2024-05-01T10:00:00.000Z");
    [reflexivity|reflexivity|discriminate].
Defined.

Lemma report_is_written_under_escaped_name_witness :
  snd (writeReportToFile (ReportArray ["<html>"; "</html>"]) timedInput
         {["notes.txt" := "keep"]}) !! "notes.txt"
  = Some "keep".
Proof.
  rewrite (proj1 (proj2 (proj2 (report_is_written_under_escaped_name
                                  (ReportArray ["<html>"; "</html>"]) timedInput
                                  {["notes.txt" := "keep"]}))) "notes.txt");
    [reflexivity|discriminate].
Defined.
